(** * Request-ID middleware (package requestid): model and verification

    A shallow embedding of [request_id.go].  The middleware resolves an
    identifier for every request through four swappable strategies
    (generator, source, save handler, post-processor) and then calls the
    next handler.

    Conventions of the embedding:
    - an [http.Header] is a finite map from header names to value lists;
      [Header_Get] and [Header_Set] canonicalise the name as
      net/textproto does, a direct map assignment does not;
    - the request, the response writer and the process-wide collaborators
      (clock, entropy source, gorilla context entries of the request) form
      one [World]; a Go method with side effects is a function on worlds;
    - a Go interface value is a record holding the method of the value it
      wraps; an interface-typed field may be nil, which is [None];
    - the calls the middleware makes are recorded in a trace of [Event]s. *)

From Stdlib Require Import ZArith NArith Ascii String List Lia Bool.
From Stdlib Require Import Strings.Byte Floats.SpecFloat DecimalString.
From stdpp Require Import base strings gmap list.

Local Open Scope string_scope.

(** ** Bytes, strings and hexadecimal encoding *)

(** A Go string or byte slice, seen as a list of characters. *)
Fixpoint chars (s : string) : list ascii :=
  match s with
  | EmptyString => []
  | String c s' => c :: chars s'
  end.

Definition in_range (lo hi : N) (c : ascii) : bool :=
  ((lo <=? N_of_ascii c) && (N_of_ascii c <=? hi))%N.

Definition is_lower : ascii -> bool := in_range 97 122.
Definition is_upper : ascii -> bool := in_range 65 90.
Definition is_digit : ascii -> bool := in_range 48 57.

(** The digits of lowercase hexadecimal: [0-9a-f]. *)
Definition is_lower_hex (c : ascii) : bool := is_digit c || in_range 97 102 c.

(** encoding/hex: [const hextable = "0123456789abcdef"]. *)
Definition hextable : string := "0123456789abcdef".

Definition hexdigit (n : N) : ascii :=
  match String.get (N.to_nat n) hextable with
  | Some c => c
  | None => "0"%char
  end.

(** [hex.EncodeToString]: for each byte [v], the characters
    [hextable[v>>4]] and [hextable[v&0x0f]]. *)
Fixpoint hex_EncodeToString (src : list byte) : string :=
  match src with
  | [] => ""
  | v :: rest =>
      String (hexdigit (N.shiftr (Byte.to_N v) 4))
        (String (hexdigit (N.land (Byte.to_N v) 15)) (hex_EncodeToString rest))
  end.

(** ** net/textproto: canonical header names *)

(** [validHeaderFieldByte]: the token characters of RFC 7230. *)
Definition validHeaderFieldByte (c : ascii) : bool :=
  is_lower c || is_upper c || is_digit c ||
  existsb (Ascii.eqb c) (chars "!#$%&'*+-.^_`|~").

(** ['a' - 'A']. *)
Definition toLower : N := 32.

(** The canonicalising loop of [canonicalMIMEHeaderKey]: upper case for the
    first letter and for a letter after a dash, lower case elsewhere. *)
Fixpoint canonical_loop (upper : bool) (a : string) : string :=
  match a with
  | EmptyString => EmptyString
  | String c rest =>
      let c' :=
        if upper && is_lower c then ascii_of_N (N_of_ascii c - toLower)
        else if negb upper && is_upper c then ascii_of_N (N_of_ascii c + toLower)
        else c in
      String c' (canonical_loop (Ascii.eqb c' "-") rest)
  end.

(** [textproto.CanonicalMIMEHeaderKey]: a key holding a byte that is not a
    header field byte (a space among them) is returned unchanged. *)
Definition CanonicalMIMEHeaderKey (s : string) : string :=
  if forallb validHeaderFieldByte (chars s) then canonical_loop true s else s.

(** ** net/http: headers, requests, response writers *)

(** [type Header map[string][]string]. *)
Abbreviation Header := (gmap string (list string)).

(** [Header.Get]: the first value under the canonical form of [key], or the
    empty string. *)
Definition Header_Get (h : Header) (key : string) : string :=
  match h !! CanonicalMIMEHeaderKey key with
  | Some (v :: _) => v
  | _ => ""
  end.

(** [Header.Set]: the entry under the canonical form of [key] becomes the
    one-element list holding [value]. *)
Definition Header_Set (h : Header) (key value : string) : Header :=
  <[CanonicalMIMEHeaderKey key := [value]]> h.

(** The part of [http.Request] the package touches; the header map is
    allocated, as it is on every request a server hands to a handler. *)
Record Request := mkRequest { req_Header : Header }.

(** An [http.ResponseWriter], through the header map its [Header()] method
    returns. *)
Record ResponseWriter := mkResponseWriter { rw_Header : Header }.

(** ** The world one invocation of the middleware runs in *)

Record World := mkWorld {
  w_rw : ResponseWriter;        (* the response writer handed to ServeHTTP *)
  w_r : Request;                (* the request handed to ServeHTTP *)
  w_context : gmap string string; (* gorilla/context entries of that request *)
  w_now : Z;                    (* what time.Now().UnixNano() reads, an int64 *)
  w_entropy : list byte         (* bytes rand.Reader delivers before it fails *)
}.

Definition set_r (r : Request) (w : World) : World :=
  mkWorld (w_rw w) r (w_context w) (w_now w) (w_entropy w).

Definition set_rw (rw : ResponseWriter) (w : World) : World :=
  mkWorld rw (w_r w) (w_context w) (w_now w) (w_entropy w).

Definition set_context (c : gmap string string) (w : World) : World :=
  mkWorld (w_rw w) (w_r w) c (w_now w) (w_entropy w).

Definition set_entropy (e : list byte) (w : World) : World :=
  mkWorld (w_rw w) (w_r w) (w_context w) (w_now w) e.

(** ** crypto/rand *)

(** The outcome of [rand.Read(b)] on a zeroed buffer [b] of [n] bytes:
    the buffer afterwards and whether [err != nil].  [rand.Read] is
    [io.ReadFull(rand.Reader, b)]: it fails exactly when the reader delivers
    fewer than [n] bytes, and the bytes delivered before the failure are in
    the buffer. *)
Definition rand_Read (n : nat) (w : World) : (list byte * bool) * World :=
  let got := take n (w_entropy w) in
  (((got ++ replicate (n - List.length got) x00)%list,
    negb (List.length got =? n)%nat),
   set_entropy (drop n (w_entropy w)) w).

(** ** time, float64 and fmt *)

(** [time.Now().UnixNano()]. *)
Definition time_Now_UnixNano (w : World) : Z * World := (w_now w, w).

(** IEEE 754 binary64, as specified by [SpecFloat]: 53 bits of precision. *)
Definition float64_of_int (n : Z) : spec_float := binary_normalize 53 1024 n 0 false.
Definition float64_div : spec_float -> spec_float -> spec_float := SFdiv 53 1024.

(** The quotient [num / den] ([den > 0]) rounded to the nearest integer,
    ties to even: the rounding of strconv's fixed-precision formatting. *)
Definition round_half_even (num den : Z) : Z :=
  let q := (num / den)%Z in
  match (2 * (num mod den) ?= den)%Z with
  | Lt => q
  | Gt => (q + 1)%Z
  | Eq => if Z.even q then q else (q + 1)%Z
  end.

Definition digit (n : Z) : ascii := ascii_of_N (48 + Z.to_N (n mod 10)).

(** The [k] low decimal digits of [n], most significant first. *)
Fixpoint fixed_digits (k : nat) (n : Z) : string :=
  match k with
  | O => ""
  | S k' => String (digit (n / 10 ^ Z.of_nat k')) (fixed_digits k' n)
  end.

(** The decimal numeral of a natural number, without leading zeros. *)
Definition decimal (n : Z) : string := NilZero.string_of_uint (N.to_uint (Z.to_N n)).

(** The verb [%f] on a float64: sign, integer part, a dot and six
    fraction digits, the value rounded to the nearest millionth. *)
Definition fmt_f (x : spec_float) : string :=
  match x with
  | S754_nan => "NaN"
  | S754_infinity s => if s then "-Inf" else "+Inf"
  | S754_zero s => (if s then "-" else "") ++ "0.000000"
  | S754_finite s m e =>
      let millionths :=
        if (0 <=? e)%Z then (Z.pos m * 2 ^ e * 1000000)%Z
        else round_half_even (Z.pos m * 1000000) (2 ^ (- e)) in
      (if s then "-" else "") ++ decimal (millionths / 1000000) ++ "."
        ++ fixed_digits 6 millionths
  end.

(** Neither NaN nor an infinity. *)
Definition is_finite_or_zero (x : spec_float) : bool :=
  match x with
  | S754_zero _ | S754_finite _ _ _ => true
  | _ => false
  end.

(** ** The strategy interfaces *)

(** A method receives the request and the response writer by reference:
    it reads them from the world and leaves its changes there.  An
    implementation is free to touch any part of the world. *)

(** [IDGenerator]: [Generate() string]. *)
Record IDGenerator := { Generate : World -> string * World }.

(** [IDSource]: [GetID(r *http.Request) string]. *)
Record IDSource := { GetID : World -> string * World }.

(** [IDSaveHandler]: [SaveID(rw http.ResponseWriter, r *http.Request, id string)]. *)
Record IDSaveHandler := { SaveID : string -> World -> World }.

(** [IDPostProcessor]: [Process(rw http.ResponseWriter, r *http.Request, id string)]. *)
Record IDPostProcessor := { Process : string -> World -> World }.

(** [DefaultIDHeader] is where command ID is stored. *)
Definition DefaultIDHeader : string := "X-Command-ID".

(** [GetRequestID] extracts command ID from the request header. *)
Definition GetRequestID (r : Request) : string :=
  Header_Get (req_Header r) DefaultIDHeader.

(** ** Generators *)

Module randomIDGenerator.
Record t := mk {}.

(** Generate random id: sixteen bytes of entropy in hexadecimal, or the
    empty string when the read fails. *)
Definition Generate (rig : t) (w : World) : string * World :=
  let '((r, err), w) := rand_Read 16 w in
  if err then ("", w) else (hex_EncodeToString r, w).
End randomIDGenerator.

Module timestampIDGenerator.
Record t := mk {}.

(** Generate id based on [time.Now().UnixNano()]; the error of the
    entropy read is not looked at. *)
Definition Generate (trg : t) (w : World) : string * World :=
  let '((r, _), w) := rand_Read 2 w in
  let '(nano, w) := time_Now_UnixNano w in
  (fmt_f (float64_div (float64_of_int nano) (float64_of_int 1000000000))
       ++ "." ++ hex_EncodeToString r, w).
End timestampIDGenerator.

Definition NewRandomIDGenerator : IDGenerator :=
  {| Generate := randomIDGenerator.Generate randomIDGenerator.mk |}.

Definition NewTimestampIDGenerator : IDGenerator :=
  {| Generate := timestampIDGenerator.Generate timestampIDGenerator.mk |}.

(** ** Sources *)

Module sourceHeader.
Record t := mk { header : string }.

Definition GetID (s : t) (w : World) : string * World :=
  (Header_Get (req_Header (w_r w)) (header s), w).
End sourceHeader.

Definition NewSourceHeader (header : string) : IDSource :=
  {| GetID := sourceHeader.GetID (sourceHeader.mk header) |}.

Module sourceCustom.
Record t := mk { fn : World -> string * World }.

Definition GetID (s : t) (w : World) : string * World := fn s w.
End sourceCustom.

Definition NewSourceCustom (fn : World -> string * World) : IDSource :=
  {| GetID := sourceCustom.GetID (sourceCustom.mk fn) |}.

(** ** Save handlers *)

Module saveHandlerHeader.
Record t := mk { header : string }.

(** [r.Header.Set(s.header, id)]. *)
Definition SaveID (s : t) (id : string) (w : World) : World :=
  set_r (mkRequest (Header_Set (req_Header (w_r w)) (header s) id)) w.
End saveHandlerHeader.

Definition NewSaveHandlerHeader (header : string) : IDSaveHandler :=
  {| SaveID := saveHandlerHeader.SaveID (saveHandlerHeader.mk header) |}.

(** The key of a context entry is an [interface{}] in the code; a string
    stands for it here. *)
Module saveHandlerContext.
Record t := mk { field : string }.

(** [context.Set(r, s.field, id)]. *)
Definition SaveID (s : t) (id : string) (w : World) : World :=
  set_context (<[field s := id]> (w_context w)) w.
End saveHandlerContext.

Definition NewSaveHandlerContext (field : string) : IDSaveHandler :=
  {| SaveID := saveHandlerContext.SaveID (saveHandlerContext.mk field) |}.

Module saveHandlerCustom.
Record t := mk { fn : string -> World -> World }.

Definition SaveID (s : t) (id : string) (w : World) : World := fn s id w.
End saveHandlerCustom.

Definition NewSaveHandlerCustom (fn : string -> World -> World) : IDSaveHandler :=
  {| SaveID := saveHandlerCustom.SaveID (saveHandlerCustom.mk fn) |}.

(** ** Post-processors *)

Module postProcessorHeader.
Record t := mk { header : string }.

(** [rw.Header()[p.header] = []string{id}]: a map assignment, the key
    is the field as it is. *)
Definition Process (p : t) (id : string) (w : World) : World :=
  set_rw (mkResponseWriter (<[header p := [id]]> (rw_Header (w_rw w)))) w.
End postProcessorHeader.

Definition NewPostProcessorHeader (field : string) : IDPostProcessor :=
  {| Process := postProcessorHeader.Process (postProcessorHeader.mk field) |}.

Module postProcessorCustom.
Record t := mk { fn : string -> World -> World }.

Definition Process (p : t) (id : string) (w : World) : World := fn p id w.
End postProcessorCustom.

Definition NewPostProcessorCustom (fn : string -> World -> World) : IDPostProcessor :=
  {| Process := postProcessorCustom.Process (postProcessorCustom.mk fn) |}.

(** ** The handler *)

(** The calls [ServeHTTP] makes, with what the two resolving calls return
    and the identifier the two recording calls are given. *)
Inductive Event :=
| CallGetID (ret : string)
| CallGenerate (ret : string)
| CallSaveID (id : string)
| CallProcess (id : string)
| CallNext.

(** A computation on the world that logs its calls; [None] is a panic
    (a method called on a nil interface value). *)
Definition M (A : Type) : Type := World -> option (A * World * list Event).

#[export] Instance M_ret : MRet M := fun A a w => Some (a, w, []).

#[export] Instance M_bind : MBind M := fun A B k m w =>
  match m w with
  | None => None
  | Some (a, w1, t1) =>
      match k a w1 with
      | None => None
      | Some (b, w2, t2) => Some (b, w2, (t1 ++ t2)%list)
      end
  end.

Definition call_GetID (s : option IDSource) : M string := fun w =>
  match s with
  | None => None
  | Some s => let '(id, w) := GetID s w in Some (id, w, [CallGetID id])
  end.

Definition call_Generate (g : option IDGenerator) : M string := fun w =>
  match g with
  | None => None
  | Some g => let '(id, w) := Generate g w in Some (id, w, [CallGenerate id])
  end.

Definition call_SaveID (s : option IDSaveHandler) (id : string) : M unit := fun w =>
  match s with
  | None => None
  | Some s => Some (tt, SaveID s id w, [CallSaveID id])
  end.

Definition call_Process (p : option IDPostProcessor) (id : string) : M unit := fun w =>
  match p with
  | None => None
  | Some p => Some (tt, Process p id w, [CallProcess id])
  end.

(** [next(rw, r)], an [http.HandlerFunc]. *)
Definition call_next (next : World -> World) : M unit := fun w =>
  Some (tt, next w, [CallNext]).

(** [IDInjectorOptions] contains options for initialization
    requestIDInjector; a field left out of the literal is nil. *)
Record IDInjectorOptions := mkOptions {
  opt_IDGenerator : option IDGenerator;
  opt_IDSource : option IDSource;
  opt_IDSaveHandler : option IDSaveHandler;
  opt_IDPostProcessor : option IDPostProcessor
}.

Record requestIDInjector := mkInjector {
  idGenerator : option IDGenerator;
  idSource : option IDSource;
  idSaveHandler : option IDSaveHandler;
  idPostProcessor : option IDPostProcessor
}.

Definition ServeHTTP (v : requestIDInjector) (next : World -> World) : M unit :=
  id ← call_GetID (idSource v);
  id ← (if String.eqb id "" then call_Generate (idGenerator v) else mret id);
  _ ← call_SaveID (idSaveHandler v) id;
  _ ← call_Process (idPostProcessor v) id;
  call_next next.

Definition applyDefaults (v : requestIDInjector) : requestIDInjector :=
  let v :=
    match idGenerator v with
    | None => mkInjector (Some NewTimestampIDGenerator) (idSource v)
                (idSaveHandler v) (idPostProcessor v)
    | Some _ => v
    end in
  let v :=
    match idSource v with
    | None => mkInjector (idGenerator v) (Some (NewSourceHeader DefaultIDHeader))
                (idSaveHandler v) (idPostProcessor v)
    | Some _ => v
    end in
  let v :=
    match idSaveHandler v with
    | None => mkInjector (idGenerator v) (idSource v)
                (Some (NewSaveHandlerHeader DefaultIDHeader)) (idPostProcessor v)
    | Some _ => v
    end in
  match idPostProcessor v with
  | None => mkInjector (idGenerator v) (idSource v) (idSaveHandler v)
              (Some (NewPostProcessorHeader DefaultIDHeader))
  | Some _ => v
  end.

(** [NewRequestIDInjector] does what it says on the tin. *)
Definition NewRequestIDInjector (o : IDInjectorOptions) : requestIDInjector :=
  let middleware :=
    mkInjector (opt_IDGenerator o) (opt_IDSource o) (opt_IDSaveHandler o)
      (opt_IDPostProcessor o) in
  applyDefaults middleware.

(** ** Reading a trace *)

(** The identifiers handed to [SaveID], in call order. *)
Definition saved_ids (tr : list Event) : list string :=
  omap (fun e => match e with CallSaveID id => Some id | _ => None end) tr.

(** The identifiers handed to [Process], in call order. *)
Definition processed_ids (tr : list Event) : list string :=
  omap (fun e => match e with CallProcess id => Some id | _ => None end) tr.

(** What the resolving calls ([GetID], [Generate]) returned, in call order. *)
Definition resolved_ids (tr : list Event) : list string :=
  omap (fun e => match e with
                 | CallGetID id | CallGenerate id => Some id
                 | _ => None
                 end) tr.

(** How often the next handler was called. *)
Definition next_calls (tr : list Event) : nat :=
  List.length (List.filter (fun e => match e with CallNext => true | _ => false end) tr).

(** The last [n] characters of a string. *)
Definition string_suffix (n : nat) (s : string) : string :=
  String.substring (String.length s - n) n s.

(** The options literal with no field set, and the injector the doc comment
    of [NewRequestIDInjector] calls the same. *)
Definition empty_options : IDInjectorOptions := mkOptions None None None None.

Definition explicit_options : IDInjectorOptions :=
  mkOptions (Some NewTimestampIDGenerator)
            (Some (NewSourceHeader DefaultIDHeader))
            (Some (NewSaveHandlerHeader DefaultIDHeader))
            (Some (NewPostProcessorHeader DefaultIDHeader)).

(** The value of a hexadecimal digit of [hextable], as encoding/hex's
    [fromHexChar] reads it back. *)
Definition fromHexChar (c : ascii) : N :=
  (if is_digit c then N_of_ascii c - 48 else N_of_ascii c - 87)%N.

(** The injector with the random generator and the header defaults. *)
Definition random_options : IDInjectorOptions :=
  mkOptions (Some NewRandomIDGenerator) None None None.

(** The injector that saves into the request context under [field]. *)
Definition context_options (field : string) : IDInjectorOptions :=
  mkOptions None None (Some (NewSaveHandlerContext field)) None.

(** The injector with a custom source that computes the identifier from
    the request alone, as a source reading a cookie or a query parameter. *)
Definition custom_source_options (f : Request -> string) : IDInjectorOptions :=
  mkOptions None (Some (NewSourceCustom (fun w => (f (w_r w), w)))) None None.

(** The two recording steps of the default injector. *)
Abbreviation default_save := (SaveID (NewSaveHandlerHeader DefaultIDHeader)).
Abbreviation default_process := (Process (NewPostProcessorHeader DefaultIDHeader)).

(** * Properties *)

(** ** Strings and hexadecimal *)

Lemma append_nonempty (s t : string) (c : ascii) : s ++ String c t ≠ "".
Proof. destruct s; discriminate. Qed.

Lemma chars_append (s t : string) : chars (s ++ t) = (chars s ++ chars t)%list.
Proof. induction s as [|c s IH]; simpl; [reflexivity | now rewrite IH]. Qed.

Lemma hexdigit_high_lower (v : byte) :
  is_lower_hex (hexdigit (N.shiftr (Byte.to_N v) 4)) = true.
Proof. destruct v; reflexivity. Qed.

Lemma hexdigit_low_lower (v : byte) :
  is_lower_hex (hexdigit (N.land (Byte.to_N v) 15)) = true.
Proof. destruct v; reflexivity. Qed.

Lemma hex_EncodeToString_length (src : list byte) :
  String.length (hex_EncodeToString src) = 2 * List.length src.
Proof. induction src as [|v src IH]; simpl; [reflexivity | rewrite IH; lia]. Qed.

Lemma hex_EncodeToString_lower (src : list byte) :
  forallb is_lower_hex (chars (hex_EncodeToString src)) = true.
Proof.
  induction src as [|v src IH]; [reflexivity|].
  cbn [hex_EncodeToString chars forallb].
  now rewrite hexdigit_high_lower, hexdigit_low_lower, IH.
Qed.

(** ** Canonical header names *)

Example CanonicalMIMEHeaderKey_lower : CanonicalMIMEHeaderKey "user-agent" = "User-Agent".
Proof. reflexivity. Qed.

Example CanonicalMIMEHeaderKey_upper : CanonicalMIMEHeaderKey "USER-AGENT" = "User-Agent".
Proof. reflexivity. Qed.

Example CanonicalMIMEHeaderKey_digit : CanonicalMIMEHeaderKey "a-1-c" = "A-1-C".
Proof. reflexivity. Qed.

Example CanonicalMIMEHeaderKey_space :
  CanonicalMIMEHeaderKey "C Ontent-Transfer-Encoding" = "C Ontent-Transfer-Encoding".
Proof. reflexivity. Qed.

(** ** float64 arithmetic stays finite on clock readings *)

Section Float64.
Local Open Scope Z_scope.

Lemma digits2_pos_size (p : positive) : digits2_pos p = Pos.size p.
Proof. induction p; simpl; congruence. Qed.

Lemma Zdigits2_log2 (m : Z) : 0 < m -> Zdigits2 m = Z.log2 m + 1.
Proof.
  destruct m as [|p|p]; try lia. intros _. simpl.
  destruct p; simpl; rewrite ?digits2_pos_size; lia.
Qed.

Lemma Zdigits2_nonneg (m : Z) : 0 <= Zdigits2 m.
Proof. destruct m; simpl; lia. Qed.

Lemma Zdigits2_mono (a b : Z) : 0 <= a <= b -> Zdigits2 a <= Zdigits2 b.
Proof.
  intros [Ha Hab]. destruct (Z.eq_dec a 0) as [->|Hne]; [apply Zdigits2_nonneg|].
  rewrite !Zdigits2_log2 by lia. pose proof (Z.log2_le_mono a b Hab). lia.
Qed.

Lemma Zdigits2_succ (m : Z) : 0 <= m -> Zdigits2 (m + 1) <= Zdigits2 m + 1.
Proof.
  intros Hm. destruct (Z.eq_dec m 0) as [->|Hne]; [simpl; lia|].
  rewrite (Zdigits2_log2 (m + 1)) by lia. rewrite (Zdigits2_log2 m) by lia.
  pose proof (Z.log2_succ_le m) as Hl. rewrite <- Z.add_1_r in Hl. lia.
Qed.

Lemma Zdigits2_bound (m k : Z) : 0 <= m < 2 ^ k -> 0 <= k -> Zdigits2 m <= k.
Proof.
  intros [Hm Hlt] Hk. destruct (Z.eq_dec m 0) as [->|Hne]; [simpl; lia|].
  rewrite Zdigits2_log2 by lia.
  assert (Z.log2 m < k) by (apply Z.log2_lt_pow2; lia). lia.
Qed.

Lemma Zdigits2_shiftl (m s : Z) : 0 < m -> 0 <= s -> Zdigits2 (Z.shiftl m s) = Zdigits2 m + s.
Proof.
  intros Hm Hs.
  assert (0 < Z.shiftl m s).
  { rewrite Z.shiftl_mul_pow2 by lia. apply Z.mul_pos_pos; [lia|]. apply Z.pow_pos_nonneg; lia. }
  rewrite !Zdigits2_log2 by lia. rewrite Z.log2_shiftl by lia. lia.
Qed.

Lemma shr_1_inv (mrs : shr_record) :
  0 <= shr_m mrs ->
  0 <= shr_m (shr_1 mrs) /\
  Zdigits2 (shr_m (shr_1 mrs)) <= Z.max 0 (Zdigits2 (shr_m mrs) - 1).
Proof.
  destruct mrs as [[|[p|p|]|p] r s]; cbn [shr_1 shr_m Zdigits2 digits2_pos]; intros H;
    rewrite ?Pos2Z.inj_succ; split; lia.
Qed.

Lemma iter_shr_1_inv (p : positive) (mrs : shr_record) :
  0 <= shr_m mrs ->
  0 <= shr_m (SpecFloat.iter_pos shr_1 p mrs) /\
  Zdigits2 (shr_m (SpecFloat.iter_pos shr_1 p mrs)) <= Z.max 0 (Zdigits2 (shr_m mrs) - Z.pos p).
Proof.
  revert mrs. induction p as [p IH|p IH|]; intros mrs H; simpl.
  - destruct (shr_1_inv mrs H) as [H1 D1].
    destruct (IH _ H1) as [H2 D2]. destruct (IH _ H2) as [H3 D3].
    split; [exact H3|]. lia.
  - destruct (IH _ H) as [H2 D2]. destruct (IH _ H2) as [H3 D3].
    split; [exact H3|]. lia.
  - destruct (shr_1_inv mrs H) as [H1 D1]. split; [exact H1|]. lia.
Qed.

Lemma shr_inv (mrs : shr_record) (e n : Z) :
  0 <= shr_m mrs ->
  0 <= shr_m (fst (shr mrs e n)) /\
  snd (shr mrs e n) = Z.max e (e + n) /\
  Zdigits2 (shr_m (fst (shr mrs e n))) + snd (shr mrs e n)
    <= Z.max (Zdigits2 (shr_m mrs) + e) (snd (shr mrs e n)).
Proof.
  intros H. destruct n as [|p|p]; simpl.
  - repeat split; lia.
  - destruct (iter_shr_1_inv p mrs H) as [H1 D1]. repeat split; lia.
  - repeat split; lia.
Qed.

Lemma shr_record_of_loc_m (m : Z) (l : location) : shr_m (shr_record_of_loc m l) = m.
Proof. destruct l as [|[]]; reflexivity. Qed.

Lemma shr_fexp_inv (m e : Z) (l : location) :
  0 <= m ->
  0 <= shr_m (fst (shr_fexp 53 1024 m e l)) /\
  snd (shr_fexp 53 1024 m e l) = Z.max e (Z.max (Zdigits2 m + e - 53) (-1074)) /\
  Zdigits2 (shr_m (fst (shr_fexp 53 1024 m e l))) + snd (shr_fexp 53 1024 m e l)
    <= Z.max (Zdigits2 m + e) (snd (shr_fexp 53 1024 m e l)).
Proof.
  intros H. unfold shr_fexp.
  pose proof (shr_inv (shr_record_of_loc m l) e
                (fexp 53 1024 (Zdigits2 m + e) - e)) as Hs.
  rewrite shr_record_of_loc_m in Hs. destruct (Hs H) as (H1 & H2 & H3).
  split; [exact H1|]. split; [|exact H3].
  rewrite H2. unfold fexp, emin. lia.
Qed.

Lemma round_nearest_even_inv (m : Z) (l : location) :
  0 <= m ->
  0 <= round_nearest_even m l /\ Zdigits2 (round_nearest_even m l) <= Zdigits2 m + 1.
Proof.
  intros H. pose proof (Zdigits2_succ m H).
  destruct l as [|[]]; simpl; try (split; lia).
  destruct (Z.even m); split; lia.
Qed.

(** The result of rounding a non-negative significand whose value is below
    [2 ^ c], for [c] in range, is zero or finite, its value below
    [2 ^ (c + 1)]. *)
Lemma binary_round_aux_finite (sx : bool) (mx ex : Z) (lx : location) (c : Z) :
  0 <= mx -> Zdigits2 mx + ex <= c -> ex <= c -> -1074 <= c -> c <= 971 ->
  match binary_round_aux 53 1024 sx mx ex lx with
  | S754_zero s => s = sx
  | S754_finite s m e => s = sx /\ e <= c /\ Zdigits2 (Z.pos m) + e <= c + 1
  | _ => False
  end.
Proof.
  intros Hm Hd He Hlo Hhi. unfold binary_round_aux.
  destruct (shr_fexp_inv mx ex lx Hm) as (H1 & E1 & D1).
  destruct (shr_fexp 53 1024 mx ex lx) as [mrs' e']. simpl in H1, E1, D1.
  destruct (round_nearest_even_inv (shr_m mrs') (loc_of_shr_record mrs') H1) as [H2 D2].
  set (m2 := round_nearest_even (shr_m mrs') (loc_of_shr_record mrs')) in *.
  destruct (shr_fexp_inv m2 e' loc_Exact H2) as (H3 & E3 & D3).
  destruct (shr_fexp 53 1024 m2 e' loc_Exact) as [mrs'' e'']. simpl in H3, E3, D3.
  destruct (shr_m mrs'') as [|m|m] eqn:Hm3; [reflexivity| |lia].
  assert (He'' : e'' <= c) by lia.
  destruct (Z.leb_spec e'' (1024 - 53)); [|lia].
  repeat split; lia.
Qed.

Lemma digits2_pos_iter_xO (m d : positive) :
  digits2_pos (Pos.iter xO m d) = (digits2_pos m + d)%positive.
Proof.
  induction d as [|d IH] using Pos.peano_ind.
  - simpl. now rewrite Pos.add_1_r.
  - rewrite Pos.iter_succ. simpl. now rewrite IH, Pos.add_succ_r.
Qed.

Lemma shl_align_inv (mx : positive) (ex ex' : Z) :
  snd (shl_align mx ex ex') <= ex /\
  Zdigits2 (Z.pos (fst (shl_align mx ex ex'))) + snd (shl_align mx ex ex')
    = Zdigits2 (Z.pos mx) + ex.
Proof.
  unfold shl_align. destruct (ex' - ex) as [|d|d] eqn:Hd; cbn [fst snd Zdigits2];
    [split; lia | split; lia |].
  rewrite digits2_pos_iter_xO, Pos2Z.inj_add. split; lia.
Qed.

Lemma binary_round_finite (sx : bool) (mx : positive) (ex c : Z) :
  Zdigits2 (Z.pos mx) + ex <= c -> ex <= c -> -1074 <= c -> c <= 971 ->
  match binary_round 53 1024 sx mx ex with
  | S754_zero s => s = sx
  | S754_finite s m e => s = sx /\ e <= c /\ Zdigits2 (Z.pos m) + e <= c + 1
  | _ => False
  end.
Proof.
  intros Hd He Hlo Hhi. unfold binary_round.
  destruct (shl_align_inv mx ex (fexp 53 1024 (Z.pos (digits2_pos mx) + ex))) as [E1 D1].
  destruct (shl_align mx ex _) as [mz ez]. cbn [fst snd] in E1, D1.
  apply binary_round_aux_finite; lia.
Qed.

Lemma float64_of_int_finite (n : Z) :
  - 2 ^ 63 <= n < 2 ^ 63 ->
  match float64_of_int n with
  | S754_zero _ => True
  | S754_finite _ m e => e <= 64 /\ Zdigits2 (Z.pos m) + e <= 65
  | _ => False
  end.
Proof.
  intros Hn. unfold float64_of_int, binary_normalize.
  destruct n as [|p|p]; [exact I| |].
  - pose proof (Zdigits2_bound (Z.pos p) 64 ltac:(lia) ltac:(lia)) as Hd.
    pose proof (binary_round_finite false p 0 64 ltac:(lia) ltac:(lia) ltac:(lia) ltac:(lia)) as Hr.
    destruct (binary_round 53 1024 false p 0); intuition.
  - pose proof (Zdigits2_bound (Z.pos p) 64 ltac:(lia) ltac:(lia)) as Hd.
    pose proof (binary_round_finite true p 0 64 ltac:(lia) ltac:(lia) ltac:(lia) ltac:(lia)) as Hr.
    destruct (binary_round 53 1024 true p 0); intuition.
Qed.

Lemma SFdiv_core_binary_inv (mx my : positive) (ex ey : Z) :
  let '(q, e', _) := SFdiv_core_binary 53 1024 (Z.pos mx) ex (Z.pos my) ey in
  0 <= q /\ e' <= ex - ey /\ Zdigits2 q + e' <= Zdigits2 (Z.pos mx) + ex - ey.
Proof.
  unfold SFdiv_core_binary.
  set (e' := Z.min _ (ex - ey)).
  assert (He' : e' <= ex - ey) by (unfold e'; lia).
  set (s := ex - ey - e').
  set (m' := match s with Z.pos _ => Z.shiftl (Z.pos mx) s | 0 => Z.pos mx | Z.neg _ => 0 end).
  assert (Hm' : 0 <= m' /\ Zdigits2 m' <= Zdigits2 (Z.pos mx) + s).
  { unfold m'. destruct s as [|p|p] eqn:Hs.
    - split; lia.
    - rewrite Zdigits2_shiftl by lia. split; [|lia].
      rewrite Z.shiftl_mul_pow2 by lia. apply Z.mul_nonneg_nonneg; [lia|].
      apply Z.pow_nonneg; lia.
    - lia. }
  pose proof (Z_div_mod m' (Z.pos my) ltac:(lia)) as Hdm.
  destruct (Z.div_eucl m' (Z.pos my)) as [q r].
  destruct Hdm as [Hq Hr]. destruct Hm' as [Hm0 Hmd].
  assert (Hq0 : 0 <= q) by nia.
  assert (Hqm : q <= m') by nia.
  pose proof (Zdigits2_mono q m' ltac:(lia)).
  split; [exact Hq0|]. split; [exact He'|]. unfold s in *. lia.
Qed.

Lemma timestamp_quotient_finite (n : Z) :
  - 2 ^ 63 <= n < 2 ^ 63 ->
  is_finite_or_zero (float64_div (float64_of_int n) (float64_of_int 1000000000)) = true.
Proof.
  intros Hn. pose proof (float64_of_int_finite n Hn) as Hx.
  destruct (float64_of_int n) as [sx|sx| |sx mx ex]; try contradiction.
  - reflexivity.
  - destruct Hx as [He Hd].
    change (float64_of_int 1000000000) with (S754_finite false 8388608000000000 (-23)).
    unfold float64_div, SFdiv.
    pose proof (SFdiv_core_binary_inv mx 8388608000000000 ex (-23)) as Hc.
    destruct (SFdiv_core_binary 53 1024 (Z.pos mx) ex 8388608000000000 (-23)) as [[q e'] l].
    destruct Hc as (Hq & He' & Hqd).
    pose proof (binary_round_aux_finite (xorb sx false) q e' l 88
                  Hq ltac:(lia) ltac:(lia) ltac:(lia) ltac:(lia)) as Hr.
    destruct (binary_round_aux 53 1024 (xorb sx false) q e' l); try contradiction; reflexivity.
Qed.

End Float64.

(** ** The verb [%f] *)

Lemma digit_is_digit (n : Z) : is_digit (digit n) = true.
Proof.
  unfold digit. pose proof (Z.mod_pos_bound n 10 eq_refl) as Hr.
  assert (Hc : (n mod 10 = 0 ∨ n mod 10 = 1 ∨ n mod 10 = 2 ∨ n mod 10 = 3 ∨
                n mod 10 = 4 ∨ n mod 10 = 5 ∨ n mod 10 = 6 ∨ n mod 10 = 7 ∨
                n mod 10 = 8 ∨ n mod 10 = 9)%Z) by lia.
  repeat (destruct Hc as [Hc|Hc]; [rewrite Hc; reflexivity|]).
  rewrite Hc; reflexivity.
Qed.

Lemma fixed_digits_length (k : nat) (n : Z) : String.length (fixed_digits k n) = k.
Proof. induction k as [|k IH]; simpl; [reflexivity | now rewrite IH]. Qed.

Lemma fixed_digits_digits (k : nat) (n : Z) :
  forallb is_digit (chars (fixed_digits k n)) = true.
Proof.
  induction k as [|k IH]; [reflexivity|].
  cbn [fixed_digits chars forallb]. now rewrite digit_is_digit, IH.
Qed.

Lemma string_of_uint_digits (d : Decimal.uint) :
  forallb is_digit (chars (NilEmpty.string_of_uint d)) = true.
Proof. induction d; simpl; auto. Qed.

Lemma decimal_digits (n : Z) :
  decimal n ≠ "" ∧ forallb is_digit (chars (decimal n)) = true.
Proof.
  unfold decimal. generalize (N.to_uint (Z.to_N n)). intros d. split.
  - destruct d; discriminate.
  - destruct d as [|d|d|d|d|d|d|d|d|d|d]; [reflexivity|..];
      unfold NilZero.string_of_uint; apply string_of_uint_digits.
Qed.

(** A finite float64 prints as a decimal numeral: an optional minus sign,
    an integer part without sign, a dot and exactly six fraction digits. *)
Lemma fmt_f_finite_shape (s : bool) (m : positive) (e : Z) :
  ∃ int frac : string,
    fmt_f (S754_finite s m e) = (if s then "-" else "") ++ int ++ "." ++ frac ∧
    int ≠ "" ∧ forallb is_digit (chars int) = true ∧
    String.length frac = 6 ∧ forallb is_digit (chars frac) = true.
Proof.
  unfold fmt_f.
  set (millionths := if (0 <=? e)%Z then _ else _).
  exists (decimal (millionths / 1000000)), (fixed_digits 6 millionths).
  split; [reflexivity|].
  destruct (decimal_digits (millionths / 1000000)) as [Hne Hd].
  split; [exact Hne|]. split; [exact Hd|].
  split; [apply fixed_digits_length | apply fixed_digits_digits].
Qed.

Lemma fmt_f_decimal (x : spec_float) :
  is_finite_or_zero x = true →
  ∃ sign int frac : string,
    fmt_f x = sign ++ int ++ "." ++ frac ∧
    (sign = "" ∨ sign = "-") ∧
    int ≠ "" ∧ forallb is_digit (chars int) = true ∧
    String.length frac = 6 ∧ forallb is_digit (chars frac) = true.
Proof.
  destruct x as [s|s| |s m e]; try discriminate; intros _.
  - exists (if s then "-" else ""), "0", "000000".
    split; [reflexivity|]. split; [destruct s; auto|]. repeat split. discriminate.
  - destruct (fmt_f_finite_shape s m e) as (int & frac & Hf & Hrest).
    exists (if s then "-" else ""), int, frac.
    split; [exact Hf|]. split; [destruct s; auto | exact Hrest].
Qed.

Example fmt_f_epoch_seconds :
  fmt_f (float64_div (float64_of_int 1446336000123456789) (float64_of_int 1000000000))
  = "1446336000.123457".
Proof. vm_compute. reflexivity. Qed.

Example fmt_f_int64_max :
  fmt_f (float64_div (float64_of_int 9223372036854775807) (float64_of_int 1000000000))
  = "9223372036.854776".
Proof. vm_compute. reflexivity. Qed.

Example fmt_f_before_epoch :
  fmt_f (float64_div (float64_of_int (-1)) (float64_of_int 1000000000)) = "-0.000000".
Proof. vm_compute. reflexivity. Qed.

Example fmt_f_rounds_to_nearest :
  fmt_f (float64_div (float64_of_int 1000000500) (float64_of_int 1000000000))
  = "1.000001".
Proof. vm_compute. reflexivity. Qed.

(** ** Entropy reads *)

Lemma rand_Read_buffer_length (n : nat) (w : World) :
  List.length (rand_Read n w).1.1 = n.
Proof.
  unfold rand_Read; simpl.
  rewrite length_app, length_replicate, length_take. lia.
Qed.

Lemma rand_Read_ok (n : nat) (w : World) :
  (n ≤ List.length (w_entropy w))%nat →
  (rand_Read n w).1 = (take n (w_entropy w), false).
Proof.
  intros Hn. unfold rand_Read; simpl.
  assert (Hlen : List.length (take n (w_entropy w)) = n) by (rewrite length_take; lia).
  rewrite Hlen, Nat.sub_diag, Nat.eqb_refl. simpl. now rewrite app_nil_r.
Qed.

Lemma rand_Read_short (n : nat) (w : World) :
  (List.length (w_entropy w) < n)%nat →
  (rand_Read n w).1 =
    ((w_entropy w ++ replicate (n - List.length (w_entropy w)) x00)%list, true).
Proof.
  intros Hn. unfold rand_Read; simpl.
  rewrite take_ge by lia.
  destruct (Nat.eqb_spec (List.length (w_entropy w)) n); [lia | reflexivity].
Qed.

(** ** The handler on bound strategies *)

(** What [ServeHTTP] computes once its four fields are bound. *)
Lemma ServeHTTP_bound gen src sav post (next : World -> World) (w : World) :
  ServeHTTP (mkInjector (Some gen) (Some src) (Some sav) (Some post)) next w =
  let id0 := (GetID src w).1 in
  let w1 := (GetID src w).2 in
  if String.eqb id0 "" then
    let g := (Generate gen w1).1 in
    let w2 := (Generate gen w1).2 in
    Some (tt, next (Process post g (SaveID sav g w2)),
          [CallGetID id0; CallGenerate g; CallSaveID g; CallProcess g; CallNext])
  else
    Some (tt, next (Process post id0 (SaveID sav id0 w1)),
          [CallGetID id0; CallSaveID id0; CallProcess id0; CallNext]).
Proof.
  unfold ServeHTTP, mbind, M_bind, call_GetID; simpl.
  destruct (GetID src w) as [id0 w1]; simpl.
  destruct (String.eqb id0 ""); simpl.
  - unfold call_Generate. destruct (Generate gen w1) as [g w2]; reflexivity.
  - reflexivity.
Qed.

(** Construction binds every field: to the option given, or to the default. *)
Lemma NewRequestIDInjector_bound (o : IDInjectorOptions) :
  NewRequestIDInjector o =
  mkInjector (Some (default NewTimestampIDGenerator (opt_IDGenerator o)))
             (Some (default (NewSourceHeader DefaultIDHeader) (opt_IDSource o)))
             (Some (default (NewSaveHandlerHeader DefaultIDHeader) (opt_IDSaveHandler o)))
             (Some (default (NewPostProcessorHeader DefaultIDHeader) (opt_IDPostProcessor o))).
Proof. destruct o as [[g|] [s|] [sv|] [p|]]; reflexivity. Qed.

(** ** The per-request routine *)

(** C1: on every request [ServeHTTP] first calls [GetID]; it calls
    [Generate] if and only if [GetID] returned the empty string, so a
    non-empty value of the source is the resolved identifier and the
    generator is not called; it then calls [SaveID], then [Process], both
    with the resolved identifier, and last the next handler, once, on the
    request and response writer as the two recording calls left them. *)
Theorem ServeHTTP_call_order (o : IDInjectorOptions) (next : World -> World) (w : World) :
  ∃ gen src sav post,
    NewRequestIDInjector o = mkInjector (Some gen) (Some src) (Some sav) (Some post) ∧
    let id0 := (GetID src w).1 in
    let w1 := (GetID src w).2 in
    let id := if String.eqb id0 "" then (Generate gen w1).1 else id0 in
    let w2 := if String.eqb id0 "" then (Generate gen w1).2 else w1 in
    ∃ tr,
      ServeHTTP (NewRequestIDInjector o) next w =
        Some (tt, next (Process post id (SaveID sav id w2)), tr) ∧
      tr = (CallGetID id0 :: (if String.eqb id0 "" then [CallGenerate id] else [])
              ++ [CallSaveID id; CallProcess id; CallNext])%list ∧
      ((∃ g, CallGenerate g ∈ tr) ↔ id0 = "") ∧
      (id0 ≠ "" → id = id0) ∧
      next_calls tr = 1.
Proof.
  rewrite NewRequestIDInjector_bound.
  do 4 eexists. split; [reflexivity|].
  cbv zeta. rewrite ServeHTTP_bound. cbv zeta.
  set (src := default (NewSourceHeader DefaultIDHeader) (opt_IDSource o)).
  set (gen := default NewTimestampIDGenerator (opt_IDGenerator o)).
  destruct (String.eqb_spec (GetID src w).1 "") as [He|Hne].
  - eexists. split; [reflexivity|]. split; [reflexivity|].
    split; [|split; [congruence | reflexivity]].
    split; [intros _; exact He|].
    intros _. eexists. apply list_elem_of_In. right; left; reflexivity.
  - eexists. split; [reflexivity|]. split; [reflexivity|].
    split; [|split; [reflexivity | reflexivity]].
    split; [|congruence].
    intros [g Hg]. apply list_elem_of_In in Hg. simpl in Hg.
    destruct Hg as [Hg|[Hg|[Hg|[Hg|[]]]]]; discriminate.
Qed.

(** C2: every request gets one identifier.  It is resolved once: it is
    what [GetID] returned, when that is not empty, and otherwise what the one
    call of [Generate] returned.  [SaveID] and [Process] are both applied to
    that same identifier, and the next handler runs on the world they leave.
    The trace is the one or two resolving calls, then [SaveID] and [Process]
    on the identifier, then the next handler; nothing is resolved again
    after the identifier was recorded.  The strategies are the ones given in
    the options, or the defaults. *)
Theorem ServeHTTP_one_identifier (o : IDInjectorOptions) (next : World -> World) (w : World) :
  let gen := default NewTimestampIDGenerator (opt_IDGenerator o) in
  let src := default (NewSourceHeader DefaultIDHeader) (opt_IDSource o) in
  let sav := default (NewSaveHandlerHeader DefaultIDHeader) (opt_IDSaveHandler o) in
  let post := default (NewPostProcessorHeader DefaultIDHeader) (opt_IDPostProcessor o) in
  ∃ id w2 w' pre,
    ServeHTTP (NewRequestIDInjector o) next w =
      Some (tt, w', (pre ++ [CallSaveID id; CallProcess id; CallNext])%list) ∧
    ((id = (GetID src w).1 ∧ id ≠ "" ∧ w2 = (GetID src w).2 ∧ pre = [CallGetID id]) ∨
     ((GetID src w).1 = "" ∧
      id = (Generate gen (GetID src w).2).1 ∧
      w2 = (Generate gen (GetID src w).2).2 ∧
      pre = [CallGetID ""; CallGenerate id])) ∧
    w' = next (Process post id (SaveID sav id w2)) ∧
    (pre = [CallGetID id] ∨ pre = [CallGetID ""; CallGenerate id]) ∧
    last (resolved_ids (pre ++ [CallSaveID id; CallProcess id; CallNext])) = Some id ∧
    saved_ids (pre ++ [CallSaveID id; CallProcess id; CallNext]) = [id] ∧
    processed_ids (pre ++ [CallSaveID id; CallProcess id; CallNext]) = [id].
Proof.
  cbv zeta. rewrite NewRequestIDInjector_bound, ServeHTTP_bound. cbv zeta.
  set (src := default (NewSourceHeader DefaultIDHeader) (opt_IDSource o)).
  set (gen := default NewTimestampIDGenerator (opt_IDGenerator o)).
  destruct (String.eqb_spec (GetID src w).1 "") as [He|Hne].
  - exists (Generate gen (GetID src w).2).1, (Generate gen (GetID src w).2).2.
    eexists. exists [CallGetID ""; CallGenerate (Generate gen (GetID src w).2).1].
    rewrite He.
    split; [reflexivity|]. split; [right; repeat split; exact He|].
    split; [reflexivity|]. split; [right; reflexivity|]. repeat split.
  - exists (GetID src w).1, (GetID src w).2.
    eexists. exists [CallGetID (GetID src w).1].
    split; [reflexivity|]. split; [left; repeat split; exact Hne|].
    split; [reflexivity|]. split; [left; reflexivity|]. repeat split.
Qed.

(** C9: the routine has no abort path: on every request it runs to the
    call of the next handler.  In particular, when the source yields the
    empty string and the generator returns the empty string too, that empty
    identifier goes unchanged to [SaveID] and to [Process], and the next
    handler is still called. *)
Theorem ServeHTTP_never_aborts (o : IDInjectorOptions) (next : World -> World) (w : World) :
  (∃ w' pre id,
     ServeHTTP (NewRequestIDInjector o) next w =
       Some (tt, next w', (pre ++ [CallSaveID id; CallProcess id; CallNext])%list)) ∧
  (∀ gen src sav post,
     NewRequestIDInjector o = mkInjector (Some gen) (Some src) (Some sav) (Some post) →
     (GetID src w).1 = "" →
     (Generate gen (GetID src w).2).1 = "" →
     ServeHTTP (NewRequestIDInjector o) next w =
       Some (tt, next (Process post "" (SaveID sav "" (Generate gen (GetID src w).2).2)),
             [CallGetID ""; CallGenerate ""; CallSaveID ""; CallProcess ""; CallNext])).
Proof.
  split.
  - rewrite NewRequestIDInjector_bound, ServeHTTP_bound. cbv zeta.
    destruct (String.eqb _ "").
    + eexists. eexists [_; _]. eexists. reflexivity.
    + eexists. eexists [_]. eexists. reflexivity.
  - intros gen src sav post Hv Hsrc Hgen.
    rewrite Hv, ServeHTTP_bound. cbv zeta. rewrite Hsrc. simpl. rewrite Hgen.
    reflexivity.
Qed.

(** A request without the header, an entropy source that has run dry and
    the random generator: the empty identifier is recorded and the next
    handler runs. *)
Lemma ServeHTTP_never_aborts_witness :
  let o := mkOptions (Some NewRandomIDGenerator) None None None in
  let w := mkWorld (mkResponseWriter ∅) (mkRequest ∅) ∅ 1446336000123456789 [] in
  ServeHTTP (NewRequestIDInjector o) (fun w => w) w =
    Some (tt,
          mkWorld (mkResponseWriter {[ "X-Command-ID" := [""] ]})
                  (mkRequest {[ "X-Command-Id" := [""] ]}) ∅ 1446336000123456789 [],
          [CallGetID ""; CallGenerate ""; CallSaveID ""; CallProcess ""; CallNext]).
Proof.
  intros o w.
  exact (proj2 (ServeHTTP_never_aborts o (fun w => w) w)
           NewRandomIDGenerator (NewSourceHeader DefaultIDHeader)
           (NewSaveHandlerHeader DefaultIDHeader)
           (NewPostProcessorHeader DefaultIDHeader)
           eq_refl eq_refl eq_refl).
Defined.

(** ** Headers *)

Lemma CanonicalMIMEHeaderKey_default : CanonicalMIMEHeaderKey DefaultIDHeader = "X-Command-Id".
Proof. reflexivity. Qed.

Lemma Header_Get_Set (h : Header) (key value : string) :
  Header_Get (Header_Set h key value) key = value.
Proof. unfold Header_Get, Header_Set. now rewrite lookup_insert_eq. Qed.

Lemma GetID_NewSourceHeader (header : string) (w : World) :
  GetID (NewSourceHeader header) w = (Header_Get (req_Header (w_r w)) header, w).
Proof. reflexivity. Qed.

Lemma NewRequestIDInjector_empty :
  NewRequestIDInjector empty_options =
  mkInjector (Some NewTimestampIDGenerator)
             (Some (NewSourceHeader DefaultIDHeader))
             (Some (NewSaveHandlerHeader DefaultIDHeader))
             (Some (NewPostProcessorHeader DefaultIDHeader)).
Proof. reflexivity. Qed.

(** C8: the header save handler sets the configured header of the request
    to the one-element list holding the identifier, whatever values the
    header had, and changes nothing else: the other request headers, the
    response writer and the rest of the world stay as they were. *)
Theorem saveHandlerHeader_SaveID_frame (header id : string) (w : World) :
  let w' := saveHandlerHeader.SaveID (saveHandlerHeader.mk header) id w in
  req_Header (w_r w') !! CanonicalMIMEHeaderKey header = Some [id] ∧
  Header_Get (req_Header (w_r w')) header = id ∧
  (∀ k, k ≠ CanonicalMIMEHeaderKey header →
        req_Header (w_r w') !! k = req_Header (w_r w) !! k) ∧
  w_rw w' = w_rw w ∧
  w_context w' = w_context w ∧ w_now w' = w_now w ∧ w_entropy w' = w_entropy w.
Proof.
  simpl. unfold Header_Set. repeat split.
  - apply lookup_insert_eq.
  - apply Header_Get_Set.
  - intros k Hk. now apply lookup_insert_ne.
Qed.

(** C10: the header post-processor assigns into the response header map
    under the very string it was built with.  For the default name that key
    is not the canonical one, ["X-Command-Id"]: the entry under the
    canonical key is left as it was, and [Header.Get], which looks under the
    canonical key, returns after the call what it returned before it. *)
Theorem postProcessorHeader_Process_raw_key (field id : string) (w : World) :
  let w' := postProcessorHeader.Process (postProcessorHeader.mk field) id w in
  let wd := postProcessorHeader.Process (postProcessorHeader.mk DefaultIDHeader) id w in
  rw_Header (w_rw w') = <[field := [id]]> (rw_Header (w_rw w)) ∧
  rw_Header (w_rw w') !! field = Some [id] ∧
  CanonicalMIMEHeaderKey DefaultIDHeader = "X-Command-Id" ∧
  "X-Command-Id" ≠ DefaultIDHeader ∧
  rw_Header (w_rw wd) !! "X-Command-Id" = rw_Header (w_rw w) !! "X-Command-Id" ∧
  Header_Get (rw_Header (w_rw wd)) DefaultIDHeader =
    Header_Get (rw_Header (w_rw w)) DefaultIDHeader.
Proof.
  simpl. split; [reflexivity|]. split; [apply lookup_insert_eq|].
  split; [reflexivity|]. split; [discriminate|].
  assert (Hl : <[DefaultIDHeader := [id]]> (rw_Header (w_rw w)) !! "X-Command-Id"
               = rw_Header (w_rw w) !! "X-Command-Id").
  { apply lookup_insert_ne. discriminate. }
  split; [exact Hl|].
  unfold Header_Get. rewrite CanonicalMIMEHeaderKey_default. now rewrite Hl.
Qed.

(** A response that already carries a value under the canonical key keeps
    it, and a canonicalising lookup still finds the old value; on a fresh
    response the lookup finds nothing. *)
Example postProcessorHeader_Process_old_value :
  let w := mkWorld (mkResponseWriter {[ "X-Command-Id" := ["old"] ]})
                   (mkRequest ∅) ∅ 0 [] in
  let w' := postProcessorHeader.Process (postProcessorHeader.mk DefaultIDHeader) "new" w in
  rw_Header (w_rw w') !! "X-Command-Id" = Some ["old"] ∧
  rw_Header (w_rw w') !! "X-Command-ID" = Some ["new"] ∧
  Header_Get (rw_Header (w_rw w')) DefaultIDHeader = "old".
Proof. repeat split. Qed.

Example postProcessorHeader_Process_fresh_response :
  let w := mkWorld (mkResponseWriter ∅) (mkRequest ∅) ∅ 0 [] in
  let w' := postProcessorHeader.Process (postProcessorHeader.mk DefaultIDHeader) "new" w in
  rw_Header (w_rw w') !! "X-Command-ID" = Some ["new"] ∧
  Header_Get (rw_Header (w_rw w')) DefaultIDHeader = "".
Proof. repeat split. Qed.

(** ** The default configuration *)

(** C4: built from options with no field set, the injector holds the
    timestamp generator and the header source, header save handler and
    header post-processor on the default header name: it is the injector
    built from these four given explicitly, so the two handle every request
    alike, as the header strategies and the timestamp generator do.  The
    defaults are bound by the constructor, for every options value field by
    field: applying them again changes nothing, and [ServeHTTP] binds none:
    on an injector whose fields are nil it panics. *)
Theorem NewRequestIDInjector_defaults :
  NewRequestIDInjector empty_options =
    mkInjector (Some NewTimestampIDGenerator)
               (Some (NewSourceHeader DefaultIDHeader))
               (Some (NewSaveHandlerHeader DefaultIDHeader))
               (Some (NewPostProcessorHeader DefaultIDHeader)) ∧
  NewRequestIDInjector empty_options = NewRequestIDInjector explicit_options ∧
  (∀ next w, ServeHTTP (NewRequestIDInjector empty_options) next w =
             ServeHTTP (NewRequestIDInjector explicit_options) next w) ∧
  (∀ next w,
     ServeHTTP (NewRequestIDInjector empty_options) next w =
     if String.eqb (Header_Get (req_Header (w_r w)) DefaultIDHeader) "" then
       let id := (timestampIDGenerator.Generate timestampIDGenerator.mk w).1 in
       let w2 := (timestampIDGenerator.Generate timestampIDGenerator.mk w).2 in
       Some (tt,
             next (postProcessorHeader.Process (postProcessorHeader.mk DefaultIDHeader) id
                     (saveHandlerHeader.SaveID (saveHandlerHeader.mk DefaultIDHeader) id w2)),
             [CallGetID ""; CallGenerate id; CallSaveID id; CallProcess id; CallNext])
     else
       let id := Header_Get (req_Header (w_r w)) DefaultIDHeader in
       Some (tt,
             next (postProcessorHeader.Process (postProcessorHeader.mk DefaultIDHeader) id
                     (saveHandlerHeader.SaveID (saveHandlerHeader.mk DefaultIDHeader) id w)),
             [CallGetID id; CallSaveID id; CallProcess id; CallNext])) ∧
  (∀ o,
     NewRequestIDInjector o =
     mkInjector (Some (default NewTimestampIDGenerator (opt_IDGenerator o)))
                (Some (default (NewSourceHeader DefaultIDHeader) (opt_IDSource o)))
                (Some (default (NewSaveHandlerHeader DefaultIDHeader) (opt_IDSaveHandler o)))
                (Some (default (NewPostProcessorHeader DefaultIDHeader)
                         (opt_IDPostProcessor o)))) ∧
  (∀ o, applyDefaults (NewRequestIDInjector o) = NewRequestIDInjector o) ∧
  (∀ next w, ServeHTTP (mkInjector None None None None) next w = None).
Proof.
  split; [reflexivity|]. split; [reflexivity|]. split; [reflexivity|].
  split; [|split; [apply NewRequestIDInjector_bound | split; [|reflexivity]]].
  - intros next w. rewrite NewRequestIDInjector_empty, ServeHTTP_bound. cbv zeta.
    rewrite GetID_NewSourceHeader. cbn [fst snd].
    destruct (String.eqb_spec (Header_Get (req_Header (w_r w)) DefaultIDHeader) "")
      as [->|Hne]; reflexivity.
  - intros o. now rewrite NewRequestIDInjector_bound.
Qed.

(** C3: a request arrives with [X-Command-ID: abc123].  The default
    injector resolves [abc123] from the source alone.  In the world the next
    handler is called on, the request header still reads [abc123], the
    response header map holds the one value [abc123] under [X-Command-ID],
    and [GetRequestID] of the request is [abc123]. *)
Theorem default_pipeline_keeps_request_id (next : World -> World) (w : World) :
  Header_Get (req_Header (w_r w)) "X-Command-ID" = "abc123" →
  ∃ w',
    ServeHTTP (NewRequestIDInjector empty_options) next w =
      Some (tt, next w',
            [CallGetID "abc123"; CallSaveID "abc123"; CallProcess "abc123"; CallNext]) ∧
    Header_Get (req_Header (w_r w')) "X-Command-ID" = "abc123" ∧
    rw_Header (w_rw w') !! "X-Command-ID" = Some ["abc123"] ∧
    GetRequestID (w_r w') = "abc123".
Proof.
  intros Hin.
  rewrite NewRequestIDInjector_empty, ServeHTTP_bound. cbv zeta.
  rewrite GetID_NewSourceHeader. cbn [fst snd].
  change DefaultIDHeader with "X-Command-ID". rewrite Hin.
  change (String.eqb "abc123" "") with false. cbv iota.
  eexists. split; [reflexivity|].
  unfold GetRequestID; simpl. change DefaultIDHeader with "X-Command-ID".
  rewrite Header_Get_Set. repeat split. apply lookup_insert_eq.
Qed.

(** The request as the server parses it: the value under the canonical key. *)
Lemma default_pipeline_keeps_request_id_witness :
  let w := mkWorld (mkResponseWriter ∅)
                   (mkRequest {[ "X-Command-Id" := ["abc123"] ]}) ∅ 0 [] in
  ∃ w',
    ServeHTTP (NewRequestIDInjector empty_options) (fun w => w) w =
      Some (tt, w',
            [CallGetID "abc123"; CallSaveID "abc123"; CallProcess "abc123"; CallNext]) ∧
    Header_Get (req_Header (w_r w')) "X-Command-ID" = "abc123" ∧
    rw_Header (w_rw w') !! "X-Command-ID" = Some ["abc123"] ∧
    GetRequestID (w_r w') = "abc123".
Proof.
  intros w. exact (default_pipeline_keeps_request_id (fun w => w) w eq_refl).
Defined.

(** ** Generators *)

Lemma substring_whole (b : string) :
  String.substring 0 (String.length b) b = b.
Proof. induction b as [|c b IH]; simpl; [reflexivity | now rewrite IH]. Qed.

Lemma substring_append_right (a b : string) :
  String.substring (String.length a) (String.length b) (a ++ b) = b.
Proof. induction a as [|c a IH]; simpl; [apply substring_whole | exact IH]. Qed.

Lemma string_length_append (a b : string) :
  String.length (a ++ b) = String.length a + String.length b.
Proof. induction a as [|c a IH]; simpl; [reflexivity | now rewrite IH]. Qed.

Lemma string_append_assoc (a b c : string) : (a ++ b) ++ c = a ++ b ++ c.
Proof.
  induction a as [|x a IH]; [reflexivity|].
  change (String x ((a ++ b) ++ c) = String x (a ++ b ++ c)). now rewrite IH.
Qed.

Lemma string_suffix_append (a b : string) :
  string_suffix (String.length b) (a ++ b) = b.
Proof.
  unfold string_suffix. rewrite string_length_append.
  replace (String.length a + String.length b - String.length b) with (String.length a) by lia.
  apply substring_append_right.
Qed.

(** C6: the random generator returns the empty string when the entropy
    read fails, and otherwise the hexadecimal encoding of the sixteen bytes
    read: 32 characters, each of them in [0-9a-f].  It is a total function
    to strings: there is no error to raise. *)
Theorem randomIDGenerator_Generate_shape (w : World) :
  let s := (randomIDGenerator.Generate randomIDGenerator.mk w).1 in
  ((rand_Read 16 w).1.2 = true ∧ (List.length (w_entropy w) < 16)%nat ∧ s = "") ∨
  ((rand_Read 16 w).1.2 = false ∧
   s = hex_EncodeToString (take 16 (w_entropy w)) ∧
   List.length (take 16 (w_entropy w)) = 16 ∧
   String.length s = 32 ∧
   forallb is_lower_hex (chars s) = true).
Proof.
  unfold randomIDGenerator.Generate.
  destruct (Nat.lt_ge_cases (List.length (w_entropy w)) 16) as [Hlt|Hge].
  - left. pose proof (rand_Read_short 16 w Hlt) as Hr.
    destruct (rand_Read 16 w) as [[r err] w1]. simpl in *.
    injection Hr as -> ->. auto.
  - right. pose proof (rand_Read_ok 16 w Hge) as Hr.
    destruct (rand_Read 16 w) as [[r err] w1]. simpl in *.
    injection Hr as -> ->.
    assert (Hlen : List.length (take 16 (w_entropy w)) = 16) by (rewrite length_take; lia).
    repeat split; auto; cbn [fst].
    + rewrite hex_EncodeToString_length, Hlen. reflexivity.
    + apply hex_EncodeToString_lower.
Qed.

(** The buffer of the timestamp generator after its entropy read: the
    bytes delivered, then zero bytes. *)
Lemma timestamp_buffer (w : World) :
  (rand_Read 2 w).1.1 =
    (take 2 (w_entropy w) ++ replicate (2 - List.length (take 2 (w_entropy w))) x00)%list.
Proof. reflexivity. Qed.

Lemma timestampIDGenerator_Generate_eq (w : World) :
  (timestampIDGenerator.Generate timestampIDGenerator.mk w).1 =
  fmt_f (float64_div (float64_of_int (w_now w)) (float64_of_int 1000000000))
    ++ "." ++ hex_EncodeToString (rand_Read 2 w).1.1.
Proof. reflexivity. Qed.

Lemma timestampIDGenerator_Generate_nonempty (w : World) :
  (timestampIDGenerator.Generate timestampIDGenerator.mk w).1 ≠ "".
Proof.
  rewrite timestampIDGenerator_Generate_eq.
  exact (append_nonempty _ (hex_EncodeToString (rand_Read 2 w).1.1) "."%char).
Qed.

(** C5, as the code has it: the timestamp generator returns the [%f]
    rendering of the clock reading in nanoseconds divided, as a float64, by
    1000000000 (for an int64 reading a decimal numeral with six fraction
    digits), then a dot, then the buffer of the entropy read in hexadecimal:
    four characters in [0-9a-f].  The buffer holds the bytes the read
    delivered followed by zero bytes, so the suffix is ["0000"] when the read
    fails without delivering a byte, and encodes the two bytes read when it
    succeeds.  The function is total: it returns in every case. *)
Theorem timestampIDGenerator_Generate_shape (w : World) :
  let s := (timestampIDGenerator.Generate timestampIDGenerator.mk w).1 in
  let buf := (rand_Read 2 w).1.1 in
  let seconds := float64_div (float64_of_int (w_now w)) (float64_of_int 1000000000) in
  s = fmt_f seconds ++ "." ++ hex_EncodeToString buf ∧
  ((- 2 ^ 63 ≤ w_now w < 2 ^ 63)%Z →
     ∃ sign int frac : string,
       fmt_f seconds = sign ++ int ++ "." ++ frac ∧
       (sign = "" ∨ sign = "-") ∧
       int ≠ "" ∧ forallb is_digit (chars int) = true ∧
       String.length frac = 6 ∧ forallb is_digit (chars frac) = true) ∧
  string_suffix 4 s = hex_EncodeToString buf ∧
  String.length (hex_EncodeToString buf) = 4 ∧
  forallb is_lower_hex (chars (hex_EncodeToString buf)) = true ∧
  buf = (take 2 (w_entropy w)
           ++ replicate (2 - List.length (take 2 (w_entropy w))) x00)%list ∧
  (w_entropy w = [] → (rand_Read 2 w).1.2 = true ∧ string_suffix 4 s = "0000") ∧
  ((2 ≤ List.length (w_entropy w))%nat →
     (rand_Read 2 w).1.2 = false ∧ buf = take 2 (w_entropy w)).
Proof.
  cbv zeta.
  assert (Hlen : String.length (hex_EncodeToString (rand_Read 2 w).1.1) = 4).
  { now rewrite hex_EncodeToString_length, rand_Read_buffer_length. }
  pose proof (timestampIDGenerator_Generate_eq w) as Hs.
  assert (Hsuf : string_suffix 4 (timestampIDGenerator.Generate timestampIDGenerator.mk w).1
                 = hex_EncodeToString (rand_Read 2 w).1.1).
  { rewrite Hs, <- string_append_assoc, <- Hlen. apply string_suffix_append. }
  split; [exact Hs|].
  split; [intros Hn; apply fmt_f_decimal, timestamp_quotient_finite, Hn|].
  split; [exact Hsuf|]. split; [exact Hlen|].
  split; [apply hex_EncodeToString_lower|]. split; [reflexivity|]. split.
  - intros He. rewrite Hsuf. unfold rand_Read. rewrite He. split; reflexivity.
  - intros Hge. pose proof (rand_Read_ok 2 w Hge) as Hr.
    destruct (rand_Read 2 w) as [[r err] w1]. simpl in *.
    injection Hr as -> ->. split; reflexivity.
Qed.

(** The read delivers one byte and fails: the suffix is not ["0000"]. *)
Lemma timestampIDGenerator_partial_read :
  let w := mkWorld (mkResponseWriter ∅) (mkRequest ∅) ∅ 1446336000123456789 [xab] in
  (rand_Read 2 w).1.2 = true ∧
  (timestampIDGenerator.Generate timestampIDGenerator.mk w).1 = "1446336000.123457.ab00" ∧
  string_suffix 4 (timestampIDGenerator.Generate timestampIDGenerator.mk w).1 ≠ "0000".
Proof. vm_compute. repeat split. discriminate. Qed.

(** The cases the statement singles out, on concrete worlds: an int64
    clock reading, a read that delivers nothing, a read that succeeds. *)
Lemma timestampIDGenerator_Generate_shape_witness :
  let dry := mkWorld (mkResponseWriter ∅) (mkRequest ∅) ∅ 1446336000123456789 [] in
  let wet := mkWorld (mkResponseWriter ∅) (mkRequest ∅) ∅ 1446336000123456789 [x1f; xc4; x07] in
  (∃ sign int frac : string,
     fmt_f (float64_div (float64_of_int 1446336000123456789) (float64_of_int 1000000000))
       = sign ++ int ++ "." ++ frac ∧
     (sign = "" ∨ sign = "-") ∧
     int ≠ "" ∧ forallb is_digit (chars int) = true ∧
     String.length frac = 6 ∧ forallb is_digit (chars frac) = true) ∧
  ((rand_Read 2 dry).1.2 = true ∧
   string_suffix 4 (timestampIDGenerator.Generate timestampIDGenerator.mk dry).1 = "0000") ∧
  ((rand_Read 2 wet).1.2 = false ∧ (rand_Read 2 wet).1.1 = [x1f; xc4]).
Proof.
  intros dry wet.
  destruct (timestampIDGenerator_Generate_shape dry) as (_ & Hdec & _ & _ & _ & _ & Hdry & _).
  destruct (timestampIDGenerator_Generate_shape wet) as (_ & _ & _ & _ & _ & _ & _ & Hwet).
  split; [|split].
  - apply Hdec. simpl. lia.
  - apply Hdry. reflexivity.
  - apply Hwet. simpl. lia.
Defined.

Example timestampIDGenerator_Generate_ok :
  (timestampIDGenerator.Generate timestampIDGenerator.mk
     (mkWorld (mkResponseWriter ∅) (mkRequest ∅) ∅ 1446336000123456789 [x1f; xc4; x07])).1
  = "1446336000.123457.1fc4".
Proof. vm_compute. reflexivity. Qed.

Example randomIDGenerator_Generate_ok :
  (randomIDGenerator.Generate randomIDGenerator.mk
     (mkWorld (mkResponseWriter ∅) (mkRequest ∅) ∅ 0
        [x00; x01; x02; x03; x04; x05; x06; x07; x08; x09; x0a; x0b; x0c; x0d; x0e; xff])).1
  = "000102030405060708090a0b0c0d0eff".
Proof. vm_compute. reflexivity. Qed.



(** * Further properties of the package *)

(** ** Hexadecimal encoding loses nothing *)

Lemma fromHexChar_hexdigit (v : byte) :
  Byte.of_N (16 * fromHexChar (hexdigit (N.shiftr (Byte.to_N v) 4))
             + fromHexChar (hexdigit (N.land (Byte.to_N v) 15))) = Some v.
Proof. destruct v; reflexivity. Qed.

Lemma hex_EncodeToString_inj (a b : list byte) :
  hex_EncodeToString a = hex_EncodeToString b → a = b.
Proof.
  revert b. induction a as [|v a IH]; intros [|v' b] H; try discriminate; [reflexivity|].
  cbn [hex_EncodeToString] in H. injection H as Hhi Hlo Hrest.
  pose proof (fromHexChar_hexdigit v) as Hv.
  rewrite Hhi, Hlo, fromHexChar_hexdigit in Hv.
  injection Hv as ->. f_equal. now apply IH.
Qed.

Lemma hex_EncodeToString_app (a b : list byte) :
  hex_EncodeToString (a ++ b) = hex_EncodeToString a ++ hex_EncodeToString b.
Proof.
  induction a as [|v a IH]; [reflexivity|].
  cbn [hex_EncodeToString app]. rewrite IH. reflexivity.
Qed.

Lemma string_length_zero (s : string) : String.length s = 0 → s = "".
Proof. destruct s; [reflexivity | discriminate]. Qed.

(** ** Generators *)

Lemma randomIDGenerator_Generate_full (w : World) :
  (16 ≤ List.length (w_entropy w))%nat →
  randomIDGenerator.Generate randomIDGenerator.mk w =
    (hex_EncodeToString (take 16 (w_entropy w)), set_entropy (drop 16 (w_entropy w)) w).
Proof.
  intros Hge. unfold randomIDGenerator.Generate.
  pose proof (rand_Read_ok 16 w Hge) as Hr.
  assert (Hw : (rand_Read 16 w).2 = set_entropy (drop 16 (w_entropy w)) w) by reflexivity.
  destruct (rand_Read 16 w) as [[r err] w1]. cbn [fst snd] in Hr, Hw.
  injection Hr as -> ->. now subst w1.
Qed.

Lemma randomIDGenerator_Generate_short (w : World) :
  (List.length (w_entropy w) < 16)%nat →
  (randomIDGenerator.Generate randomIDGenerator.mk w).1 = "".
Proof.
  intros Hlt. unfold randomIDGenerator.Generate.
  pose proof (rand_Read_short 16 w Hlt) as Hr.
  destruct (rand_Read 16 w) as [[r err] w1]. cbn [fst snd] in Hr.
  injection Hr as -> ->. reflexivity.
Qed.

(** X1: two successful calls of the random generator return equal
    identifiers exactly when the sixteen bytes they read are equal: the
    identifier determines the bytes. *)
Theorem randomIDGenerator_Generate_injective (w1 w2 : World) :
  (16 ≤ List.length (w_entropy w1))%nat →
  (16 ≤ List.length (w_entropy w2))%nat →
  (randomIDGenerator.Generate randomIDGenerator.mk w1).1 =
    (randomIDGenerator.Generate randomIDGenerator.mk w2).1
  ↔ take 16 (w_entropy w1) = take 16 (w_entropy w2).
Proof.
  intros H1 H2.
  rewrite (randomIDGenerator_Generate_full w1 H1), (randomIDGenerator_Generate_full w2 H2).
  cbn [fst]. split; [apply hex_EncodeToString_inj | now intros ->].
Qed.

Lemma randomIDGenerator_Generate_injective_witness :
  let e := [x00; x01; x02; x03; x04; x05; x06; x07;
            x08; x09; x0a; x0b; x0c; x0d; x0e; x0f] in
  let w1 := mkWorld (mkResponseWriter ∅) (mkRequest ∅) ∅ 0 (e ++ [xaa])%list in
  let w2 := mkWorld (mkResponseWriter ∅) (mkRequest ∅) ∅ 7 (e ++ [xbb; xcc])%list in
  (randomIDGenerator.Generate randomIDGenerator.mk w1).1 =
    (randomIDGenerator.Generate randomIDGenerator.mk w2).1.
Proof.
  intros e w1 w2.
  apply (randomIDGenerator_Generate_injective w1 w2); [simpl; lia | simpl; lia | reflexivity].
Defined.

(** X2: two calls of the random generator in a row, on an entropy source
    that delivers at least 32 bytes, encode consecutive chunks of the
    source: the two identifiers put together are the encoding of the first
    32 bytes, and the source has moved on by 32 bytes. *)
Theorem randomIDGenerator_Generate_twice (w : World) :
  (32 ≤ List.length (w_entropy w))%nat →
  let first := randomIDGenerator.Generate randomIDGenerator.mk w in
  let second := randomIDGenerator.Generate randomIDGenerator.mk first.2 in
  first.1 = hex_EncodeToString (take 16 (w_entropy w)) ∧
  second.1 = hex_EncodeToString (take 16 (drop 16 (w_entropy w))) ∧
  first.1 ++ second.1 = hex_EncodeToString (take 32 (w_entropy w)) ∧
  w_entropy second.2 = drop 32 (w_entropy w).
Proof.
  intros Hge. cbv zeta.
  rewrite (randomIDGenerator_Generate_full w) by lia. cbn [fst snd].
  rewrite randomIDGenerator_Generate_full
    by (cbn [set_entropy w_entropy]; rewrite length_drop; lia).
  cbn [fst snd set_entropy w_entropy].
  split; [reflexivity|]. split; [reflexivity|]. split.
  - rewrite <- hex_EncodeToString_app. f_equal.
    change 32%nat with (16 + 16)%nat. now rewrite <- take_take_drop.
  - now rewrite drop_drop.
Qed.

Lemma randomIDGenerator_Generate_twice_witness :
  let w := mkWorld (mkResponseWriter ∅) (mkRequest ∅) ∅ 0 (replicate 16 x01 ++ replicate 17 xfe)%list in
  let first := randomIDGenerator.Generate randomIDGenerator.mk w in
  let second := randomIDGenerator.Generate randomIDGenerator.mk first.2 in
  first.1 = "01010101010101010101010101010101" ∧
  second.1 = "fefefefefefefefefefefefefefefefe" ∧
  w_entropy second.2 = [xfe].
Proof.
  intros w first second.
  destruct (randomIDGenerator_Generate_twice w ltac:(simpl; lia)) as (H1 & H2 & _ & H4).
  split; [exact H1 | split; [exact H2 | exact H4]].
Defined.

Lemma string_append_inj_l (a b c : string) : a ++ b = a ++ c → b = c.
Proof.
  induction a as [|x a IH]; intros H; [exact H|].
  change (String x (a ++ b) = String x (a ++ c)) in H.
  injection H as H. now apply IH.
Qed.

(** X3: at one and the same clock reading two identifiers of the
    timestamp generator are equal exactly when the two entropy buffers are:
    the hexadecimal suffix alone tells them apart. *)
Theorem timestampIDGenerator_Generate_same_tick (w1 w2 : World) :
  w_now w1 = w_now w2 →
  (timestampIDGenerator.Generate timestampIDGenerator.mk w1).1 =
    (timestampIDGenerator.Generate timestampIDGenerator.mk w2).1
  ↔ (rand_Read 2 w1).1.1 = (rand_Read 2 w2).1.1.
Proof.
  intros Hnow. rewrite !timestampIDGenerator_Generate_eq, Hnow. split.
  - intros H. apply string_append_inj_l in H.
    change (String "." (hex_EncodeToString (rand_Read 2 w1).1.1) =
            String "." (hex_EncodeToString (rand_Read 2 w2).1.1)) in H.
    injection H as H. now apply hex_EncodeToString_inj.
  - now intros ->.
Qed.

Lemma timestampIDGenerator_Generate_same_tick_witness :
  let w1 := mkWorld (mkResponseWriter ∅) (mkRequest ∅) ∅ 1446336000123456789 [x1f; xc4] in
  let w2 := mkWorld (mkResponseWriter ∅) (mkRequest ∅) ∅ 1446336000123456789 [x1f; xc5] in
  (timestampIDGenerator.Generate timestampIDGenerator.mk w1).1 ≠
    (timestampIDGenerator.Generate timestampIDGenerator.mk w2).1.
Proof.
  intros w1 w2 H.
  apply (timestampIDGenerator_Generate_same_tick w1 w2 eq_refl) in H.
  discriminate H.
Defined.

(** ** Header strategies *)

Lemma SaveID_header_twice (header a b : string) (w : World) :
  saveHandlerHeader.SaveID (saveHandlerHeader.mk header) b
    (saveHandlerHeader.SaveID (saveHandlerHeader.mk header) a w)
  = saveHandlerHeader.SaveID (saveHandlerHeader.mk header) b w.
Proof.
  unfold saveHandlerHeader.SaveID, set_r, Header_Set. cbn.
  now rewrite insert_insert_eq.
Qed.

Lemma Process_header_twice (field a b : string) (w : World) :
  postProcessorHeader.Process (postProcessorHeader.mk field) b
    (postProcessorHeader.Process (postProcessorHeader.mk field) a w)
  = postProcessorHeader.Process (postProcessorHeader.mk field) b w.
Proof.
  unfold postProcessorHeader.Process, set_rw. cbn.
  now rewrite insert_insert_eq.
Qed.

Lemma SaveID_Process_header_commute (header field a b : string) (w : World) :
  saveHandlerHeader.SaveID (saveHandlerHeader.mk header) a
    (postProcessorHeader.Process (postProcessorHeader.mk field) b w)
  = postProcessorHeader.Process (postProcessorHeader.mk field) b
      (saveHandlerHeader.SaveID (saveHandlerHeader.mk header) a w).
Proof. reflexivity. Qed.

(** X4: the two header recorders overwrite: recording [a] and then [b]
    leaves the world that recording [b] alone leaves, so recording the same
    identifier again changes nothing; and the two do not interfere: the
    order of [SaveID] on the request and [Process] on the response is
    immaterial. *)
Theorem header_recorders_last_write_wins (header field a b : string) (w : World) :
  let save := saveHandlerHeader.SaveID (saveHandlerHeader.mk header) in
  let process := postProcessorHeader.Process (postProcessorHeader.mk field) in
  save b (save a w) = save b w ∧
  process b (process a w) = process b w ∧
  save a (process b w) = process b (save a w) ∧
  req_Header (w_r (save b (save a w))) !! CanonicalMIMEHeaderKey header = Some [b] ∧
  rw_Header (w_rw (process b (process a w))) !! field = Some [b].
Proof.
  cbv zeta. rewrite SaveID_header_twice, Process_header_twice.
  split; [reflexivity|]. split; [reflexivity|].
  split; [apply SaveID_Process_header_commute|].
  split; apply lookup_insert_eq.
Qed.

(** X5: built with a header name that is its own canonical form, the
    header post-processor writes where [Header.Get] looks: the response then
    reads the identifier under that name. *)
Theorem postProcessorHeader_Process_canonical (field id : string) (w : World) :
  CanonicalMIMEHeaderKey field = field →
  Header_Get
    (rw_Header (w_rw (postProcessorHeader.Process (postProcessorHeader.mk field) id w)))
    field = id.
Proof.
  intros Hc. unfold Header_Get. rewrite Hc. cbn.
  now rewrite lookup_insert_eq.
Qed.

Lemma postProcessorHeader_Process_canonical_witness :
  Header_Get
    (rw_Header (w_rw (postProcessorHeader.Process (postProcessorHeader.mk "X-Request-Id")
                        "abc123"
                        (mkWorld (mkResponseWriter ∅) (mkRequest ∅) ∅ 0 []))))
    "X-Request-Id" = "abc123".
Proof.
  exact (postProcessorHeader_Process_canonical "X-Request-Id" "abc123"
           (mkWorld (mkResponseWriter ∅) (mkRequest ∅) ∅ 0 []) eq_refl).
Defined.

(** X6: what the header save handler stores under [h] the header source
    reads back under any name [h'] with the same canonical form, whatever
    the case of the two names; under a name with another canonical form the
    source reads what it read before the save. *)
Theorem saveHandlerHeader_then_sourceHeader (h h' id : string) (w : World) :
  let w' := saveHandlerHeader.SaveID (saveHandlerHeader.mk h) id w in
  (CanonicalMIMEHeaderKey h' = CanonicalMIMEHeaderKey h →
     (sourceHeader.GetID (sourceHeader.mk h') w').1 = id) ∧
  (CanonicalMIMEHeaderKey h' ≠ CanonicalMIMEHeaderKey h →
     (sourceHeader.GetID (sourceHeader.mk h') w').1 =
       (sourceHeader.GetID (sourceHeader.mk h') w).1).
Proof.
  cbv zeta. unfold sourceHeader.GetID, saveHandlerHeader.SaveID, Header_Get, Header_Set.
  cbn. split; intros Hc.
  - now rewrite Hc, lookup_insert_eq.
  - rewrite lookup_insert_ne by congruence. reflexivity.
Qed.

Lemma saveHandlerHeader_then_sourceHeader_witness :
  let w := mkWorld (mkResponseWriter ∅)
                   (mkRequest {[ "Content-Type" := ["text/plain"] ]}) ∅ 0 [] in
  let w' := saveHandlerHeader.SaveID (saveHandlerHeader.mk "x-command-id") "abc123" w in
  (sourceHeader.GetID (sourceHeader.mk "X-COMMAND-ID") w').1 = "abc123" ∧
  (sourceHeader.GetID (sourceHeader.mk "content-type") w').1 = "text/plain".
Proof.
  intros w w'. split.
  - exact (proj1 (saveHandlerHeader_then_sourceHeader "x-command-id" "X-COMMAND-ID" "abc123" w)
             eq_refl).
  - exact (eq_trans
             (proj2 (saveHandlerHeader_then_sourceHeader "x-command-id" "content-type" "abc123" w)
                ltac:(discriminate))
             eq_refl).
Defined.

(** X7: the context save handler stores the identifier under its field in
    the context of the request, replacing what was there, and touches
    nothing else: the other context entries, the request with its headers
    and the response writer are as before, so [GetRequestID] does not see
    the identifier. *)
Theorem saveHandlerContext_SaveID_frame (field id : string) (w : World) :
  let w' := saveHandlerContext.SaveID (saveHandlerContext.mk field) id w in
  w_context w' !! field = Some id ∧
  (∀ k, k ≠ field → w_context w' !! k = w_context w !! k) ∧
  w_r w' = w_r w ∧ w_rw w' = w_rw w ∧
  GetRequestID (w_r w') = GetRequestID (w_r w) ∧
  (∀ id0, saveHandlerContext.SaveID (saveHandlerContext.mk field) id
            (saveHandlerContext.SaveID (saveHandlerContext.mk field) id0 w) = w').
Proof.
  cbv zeta. unfold saveHandlerContext.SaveID, set_context. cbn.
  split; [apply lookup_insert_eq|].
  split; [intros k Hk; now apply lookup_insert_ne|].
  repeat split. intros id0. now rewrite insert_insert_eq.
Qed.

(** ** Construction *)

(** X8: [applyDefaults] fills the nil fields and only those: a strategy
    that is set is kept, a nil one becomes the timestamp generator or the
    header strategy on the default name.  The result has no nil field, so
    [ServeHTTP] on it does not panic, and applying the defaults again
    changes nothing. *)
Theorem applyDefaults_fills_only_nil (v : requestIDInjector) :
  let v' := applyDefaults v in
  idGenerator v' = Some (default NewTimestampIDGenerator (idGenerator v)) ∧
  idSource v' = Some (default (NewSourceHeader DefaultIDHeader) (idSource v)) ∧
  idSaveHandler v' = Some (default (NewSaveHandlerHeader DefaultIDHeader) (idSaveHandler v)) ∧
  idPostProcessor v' =
    Some (default (NewPostProcessorHeader DefaultIDHeader) (idPostProcessor v)) ∧
  applyDefaults v' = v' ∧
  (∀ next w, is_Some (ServeHTTP v' next w)).
Proof.
  destruct v as [[g|] [s|] [sv|] [p|]]; cbv zeta;
    (do 5 (split; [reflexivity|]));
    intros next w; cbn [applyDefaults idGenerator idSource idSaveHandler idPostProcessor];
    rewrite ServeHTTP_bound; cbv zeta;
    destruct (String.eqb _ ""); eexists; reflexivity.
Qed.

(** ** The default injector, end to end *)

(** What the default injector does with a request, in one equation. *)
Lemma default_pipeline_result (next : World -> World) (w : World) :
  ServeHTTP (NewRequestIDInjector empty_options) next w =
  if String.eqb (GetRequestID (w_r w)) "" then
    let id := (timestampIDGenerator.Generate timestampIDGenerator.mk w).1 in
    Some (tt, next (default_process id (default_save id (set_entropy (drop 2 (w_entropy w)) w))),
          [CallGetID ""; CallGenerate id; CallSaveID id; CallProcess id; CallNext])
  else
    let id := GetRequestID (w_r w) in
    Some (tt, next (default_process id (default_save id w)),
          [CallGetID id; CallSaveID id; CallProcess id; CallNext]).
Proof.
  rewrite NewRequestIDInjector_empty, ServeHTTP_bound. cbv zeta.
  rewrite GetID_NewSourceHeader. cbn [fst snd]. fold (GetRequestID (w_r w)).
  destruct (String.eqb_spec (GetRequestID (w_r w)) "") as [->|Hne]; reflexivity.
Qed.

Lemma default_recorded (id : string) (w : World) :
  let w' := default_process id (default_save id w) in
  GetRequestID (w_r w') = id ∧
  req_Header (w_r w') = <["X-Command-Id" := [id]]> (req_Header (w_r w)) ∧
  rw_Header (w_rw w') = <["X-Command-ID" := [id]]> (rw_Header (w_rw w)) ∧
  w_context w' = w_context w ∧ w_now w' = w_now w ∧ w_entropy w' = w_entropy w ∧
  default_process id (default_save id w') = w'.
Proof.
  cbv zeta. split; [apply Header_Get_Set|]. do 5 (split; [reflexivity|]).
  cbn [SaveID Process NewSaveHandlerHeader NewPostProcessorHeader].
  rewrite SaveID_Process_header_commute, SaveID_header_twice.
  now rewrite Process_header_twice.
Qed.

(** X9: the default injector is stable on its own output.  The first run
    resolves the identifier the request brought or, when it brought none,
    the one the timestamp generator returns, records it and hands to the
    next handler a world whose request reads that identifier, non-empty,
    through [GetRequestID] and whose response holds it.  A default injector
    run on that world (a second copy further down the chain) resolves this
    very identifier from the header, does not call its generator, and hands
    the world on unchanged. *)
Theorem default_pipeline_stable (next next2 : World -> World) (w : World) :
  ∃ id w' tr,
    ServeHTTP (NewRequestIDInjector empty_options) next w = Some (tt, next w', tr) ∧
    id = (if String.eqb (GetRequestID (w_r w)) ""
          then (timestampIDGenerator.Generate timestampIDGenerator.mk w).1
          else GetRequestID (w_r w)) ∧
    tr = (CallGetID (GetRequestID (w_r w))
            :: (if String.eqb (GetRequestID (w_r w)) "" then [CallGenerate id] else [])
            ++ [CallSaveID id; CallProcess id; CallNext])%list ∧
    w' = default_process id
           (default_save id
              (if String.eqb (GetRequestID (w_r w)) ""
               then set_entropy (drop 2 (w_entropy w)) w else w)) ∧
    id ≠ "" ∧
    GetRequestID (w_r w') = id ∧
    req_Header (w_r w') !! "X-Command-Id" = Some [id] ∧
    rw_Header (w_rw w') !! "X-Command-ID" = Some [id] ∧
    ServeHTTP (NewRequestIDInjector empty_options) next2 w' =
      Some (tt, next2 w', [CallGetID id; CallSaveID id; CallProcess id; CallNext]).
Proof.
  assert (Hrerun : ∀ id w0, id ≠ "" →
            ServeHTTP (NewRequestIDInjector empty_options) next2
              (default_process id (default_save id w0)) =
            Some (tt, next2 (default_process id (default_save id w0)),
                  [CallGetID id; CallSaveID id; CallProcess id; CallNext])).
  { intros id w0 Hid. rewrite default_pipeline_result.
    destruct (default_recorded id w0) as (Hget & _ & _ & _ & _ & _ & Hsame).
    cbv zeta in Hget, Hsame. rewrite Hget.
    apply String.eqb_neq in Hid. rewrite Hid. cbv zeta. now rewrite Hsame. }
  assert (Hrec : ∀ id w0,
            GetRequestID (w_r (default_process id (default_save id w0))) = id ∧
            req_Header (w_r (default_process id (default_save id w0))) !! "X-Command-Id"
              = Some [id] ∧
            rw_Header (w_rw (default_process id (default_save id w0))) !! "X-Command-ID"
              = Some [id]).
  { intros id w0. destruct (default_recorded id w0) as (Hg & Hr & Hw & _).
    cbv zeta in Hg, Hr, Hw. rewrite Hr, Hw.
    split; [exact Hg|]. split; apply lookup_insert_eq. }
  rewrite default_pipeline_result.
  destruct (String.eqb_spec (GetRequestID (w_r w)) "") as [He|Hne]; cbv zeta.
  - rewrite He.
    exists (timestampIDGenerator.Generate timestampIDGenerator.mk w).1.
    do 2 eexists. split; [reflexivity|]. split; [reflexivity|].
    split; [reflexivity|]. split; [reflexivity|].
    split; [apply timestampIDGenerator_Generate_nonempty|].
    destruct (Hrec (timestampIDGenerator.Generate timestampIDGenerator.mk w).1
                (set_entropy (drop 2 (w_entropy w)) w)) as (Hg & Hr & Hw).
    split; [exact Hg|]. split; [exact Hr|]. split; [exact Hw|].
    apply Hrerun, timestampIDGenerator_Generate_nonempty.
  - exists (GetRequestID (w_r w)).
    do 2 eexists. split; [reflexivity|]. split; [reflexivity|].
    split; [reflexivity|]. split; [reflexivity|]. split; [exact Hne|].
    destruct (Hrec (GetRequestID (w_r w)) w) as (Hg & Hr & Hw).
    split; [exact Hg|]. split; [exact Hr|]. split; [exact Hw|].
    now apply Hrerun.
Qed.

(** X10: the default injector changes two header entries and nothing
    else: on the request the entry under ["X-Command-Id"], on the response
    the entry under ["X-Command-ID"].  Every other header of either, the
    context and the clock are handed to the next handler as they came, and
    the entropy source is read (two bytes) only when the request brought no
    identifier. *)
Theorem default_pipeline_frame (next : World -> World) (w : World) :
  ∃ w' tr,
    ServeHTTP (NewRequestIDInjector empty_options) next w = Some (tt, next w', tr) ∧
    (∀ k, k ≠ "X-Command-Id" → req_Header (w_r w') !! k = req_Header (w_r w) !! k) ∧
    (∀ k, k ≠ "X-Command-ID" → rw_Header (w_rw w') !! k = rw_Header (w_rw w) !! k) ∧
    w_context w' = w_context w ∧ w_now w' = w_now w ∧
    w_entropy w' =
      (if String.eqb (GetRequestID (w_r w)) "" then drop 2 (w_entropy w) else w_entropy w).
Proof.
  rewrite default_pipeline_result.
  destruct (String.eqb (GetRequestID (w_r w)) ""); cbv zeta;
    (do 2 eexists; split; [reflexivity|]);
    match goal with
    | |- context [default_process ?id (default_save ?id ?w0)] =>
        destruct (default_recorded id w0) as (_ & Hr & Hw & Hc & Hn & He & _)
    end; cbv zeta in Hr, Hw, Hc, Hn, He; rewrite Hr, Hw;
    (split; [intros k Hk; now apply lookup_insert_ne|]);
    (split; [intros k Hk; now apply lookup_insert_ne|]);
    repeat split.
Qed.

(** X11: a request carries several values under the header.  The default
    injector resolves the first one, when it is not empty, and the save
    handler leaves that value alone in the header: the further values are
    gone when the next handler runs. *)
Theorem default_pipeline_first_value_wins
    (next : World -> World) (w : World) (a : string) (rest : list string) :
  req_Header (w_r w) !! "X-Command-Id" = Some (a :: rest) →
  a ≠ "" →
  ∃ w',
    ServeHTTP (NewRequestIDInjector empty_options) next w =
      Some (tt, next w', [CallGetID a; CallSaveID a; CallProcess a; CallNext]) ∧
    req_Header (w_r w') !! "X-Command-Id" = Some [a] ∧
    rw_Header (w_rw w') !! "X-Command-ID" = Some [a].
Proof.
  intros Hh Ha.
  assert (Hget : GetRequestID (w_r w) = a).
  { unfold GetRequestID, Header_Get. rewrite CanonicalMIMEHeaderKey_default, Hh. reflexivity. }
  rewrite default_pipeline_result, Hget.
  apply String.eqb_neq in Ha. rewrite Ha. cbv zeta.
  eexists. split; [reflexivity|].
  destruct (default_recorded a w) as (_ & Hr & Hw & _). cbv zeta in Hr, Hw.
  rewrite Hr, Hw. split; apply lookup_insert_eq.
Qed.

Lemma default_pipeline_first_value_wins_witness :
  let w := mkWorld (mkResponseWriter ∅)
                   (mkRequest {[ "X-Command-Id" := ["abc123"; "def456"] ]}) ∅ 0 [] in
  ∃ w',
    ServeHTTP (NewRequestIDInjector empty_options) (fun w => w) w =
      Some (tt, w', [CallGetID "abc123"; CallSaveID "abc123"; CallProcess "abc123"; CallNext]) ∧
    req_Header (w_r w') !! "X-Command-Id" = Some ["abc123"] ∧
    rw_Header (w_rw w') !! "X-Command-ID" = Some ["abc123"].
Proof.
  intros w.
  exact (default_pipeline_first_value_wins (fun w => w) w "abc123" ["def456"]
           eq_refl ltac:(discriminate)).
Defined.

(** X12: a header whose first value is the empty string counts as no
    header, whatever values follow: the default injector generates an
    identifier, and the header of the request then holds that identifier
    alone. *)
Theorem default_pipeline_empty_first_value
    (next : World -> World) (w : World) (rest : list string) :
  req_Header (w_r w) !! "X-Command-Id" = Some ("" :: rest) →
  ∃ id w',
    ServeHTTP (NewRequestIDInjector empty_options) next w =
      Some (tt, next w',
            [CallGetID ""; CallGenerate id; CallSaveID id; CallProcess id; CallNext]) ∧
    id ≠ "" ∧
    req_Header (w_r w') !! "X-Command-Id" = Some [id] ∧
    GetRequestID (w_r w') = id.
Proof.
  intros Hh.
  assert (Hget : GetRequestID (w_r w) = "").
  { unfold GetRequestID, Header_Get. rewrite CanonicalMIMEHeaderKey_default, Hh. reflexivity. }
  rewrite default_pipeline_result, Hget. change (String.eqb "" "") with true. cbv zeta iota.
  do 2 eexists. split; [reflexivity|].
  split; [apply timestampIDGenerator_Generate_nonempty|].
  match goal with
  | |- context [default_process ?id (default_save ?id ?w0)] =>
      destruct (default_recorded id w0) as (Hg & Hr & _)
  end. cbv zeta in Hg, Hr. rewrite Hr. split; [apply lookup_insert_eq | exact Hg].
Qed.

Lemma default_pipeline_empty_first_value_witness :
  let w := mkWorld (mkResponseWriter ∅)
                   (mkRequest {[ "X-Command-Id" := [""; "def456"] ]}) ∅
                   1446336000123456789 [x1f; xc4] in
  ∃ id w',
    ServeHTTP (NewRequestIDInjector empty_options) (fun w => w) w =
      Some (tt, w',
            [CallGetID ""; CallGenerate id; CallSaveID id; CallProcess id; CallNext]) ∧
    id ≠ "" ∧
    req_Header (w_r w') !! "X-Command-Id" = Some [id] ∧
    GetRequestID (w_r w') = id.
Proof.
  intros w.
  exact (default_pipeline_empty_first_value (fun w => w) w ["def456"] eq_refl).
Defined.

(** ** Other configurations, end to end *)

(** X13: the injector with the random generator, on a request without
    identifier.  The identifier it records is the empty string exactly when
    the entropy source delivers fewer than sixteen bytes; otherwise it is 32
    characters long.  Either way it is what [GetRequestID] returns to the
    next handler. *)
Theorem random_pipeline_identifier (next : World -> World) (w : World) :
  GetRequestID (w_r w) = "" →
  ∃ id w',
    ServeHTTP (NewRequestIDInjector random_options) next w =
      Some (tt, next w',
            [CallGetID ""; CallGenerate id; CallSaveID id; CallProcess id; CallNext]) ∧
    (id = "" ↔ (List.length (w_entropy w) < 16)%nat) ∧
    (id = "" ∨ String.length id = 32) ∧
    GetRequestID (w_r w') = id ∧
    rw_Header (w_rw w') !! "X-Command-ID" = Some [id].
Proof.
  intros Hget.
  change (NewRequestIDInjector random_options)
    with (mkInjector (Some NewRandomIDGenerator) (Some (NewSourceHeader DefaultIDHeader))
            (Some (NewSaveHandlerHeader DefaultIDHeader))
            (Some (NewPostProcessorHeader DefaultIDHeader))).
  rewrite ServeHTTP_bound. cbv zeta.
  rewrite GetID_NewSourceHeader. cbn [fst snd]. fold (GetRequestID (w_r w)).
  rewrite Hget. change (String.eqb "" "") with true. cbv iota.
  cbn [Generate NewRandomIDGenerator].
  set (id := (randomIDGenerator.Generate randomIDGenerator.mk w).1).
  set (w2 := (randomIDGenerator.Generate randomIDGenerator.mk w).2).
  exists id. eexists. split; [reflexivity|].
  destruct (default_recorded id w2) as (Hg & _ & Hw & _). cbv zeta in Hg, Hw.
  assert (Hid : (id = "" ∧ (List.length (w_entropy w) < 16)%nat) ∨
                (String.length id = 32 ∧ (16 ≤ List.length (w_entropy w))%nat)).
  { destruct (Nat.lt_ge_cases (List.length (w_entropy w)) 16) as [Hlt|Hge].
    - left. split; [apply randomIDGenerator_Generate_short, Hlt | exact Hlt].
    - right. split; [|exact Hge]. unfold id.
      rewrite (randomIDGenerator_Generate_full w Hge). cbn [fst].
      rewrite hex_EncodeToString_length, length_take. lia. }
  split; [|split; [|split; [exact Hg | rewrite Hw; apply lookup_insert_eq]]].
  - destruct Hid as [[He Hlt]|[Hl Hge]]; split; intros H; try assumption; try lia.
    rewrite H in Hl. discriminate Hl.
  - destruct Hid as [[He _]|[Hl _]]; [left | right]; assumption.
Qed.

Lemma random_pipeline_identifier_witness :
  let w := mkWorld (mkResponseWriter ∅) (mkRequest ∅) ∅ 0 [x01; x02; x03] in
  ∃ id w',
    ServeHTTP (NewRequestIDInjector random_options) (fun w => w) w =
      Some (tt, w',
            [CallGetID ""; CallGenerate id; CallSaveID id; CallProcess id; CallNext]) ∧
    (id = "" ↔ (List.length (w_entropy w) < 16)%nat) ∧
    (id = "" ∨ String.length id = 32) ∧
    GetRequestID (w_r w') = id ∧
    rw_Header (w_rw w') !! "X-Command-ID" = Some [id].
Proof.
  intros w. exact (random_pipeline_identifier (fun w => w) w eq_refl).
Defined.

(** X14: the injector with the context save handler, on a request without
    identifier.  The generated identifier is in the context of the request
    under the field and in the response header map; the request itself is
    handed on as it came, so [GetRequestID] still returns the empty string
    to the next handler. *)
Theorem context_pipeline_leaves_request (field : string) (next : World -> World) (w : World) :
  GetRequestID (w_r w) = "" →
  ∃ id w',
    ServeHTTP (NewRequestIDInjector (context_options field)) next w =
      Some (tt, next w',
            [CallGetID ""; CallGenerate id; CallSaveID id; CallProcess id; CallNext]) ∧
    id ≠ "" ∧
    w_context w' !! field = Some id ∧
    rw_Header (w_rw w') !! "X-Command-ID" = Some [id] ∧
    w_r w' = w_r w ∧
    GetRequestID (w_r w') = "".
Proof.
  intros Hget.
  change (NewRequestIDInjector (context_options field))
    with (mkInjector (Some NewTimestampIDGenerator) (Some (NewSourceHeader DefaultIDHeader))
            (Some (NewSaveHandlerContext field))
            (Some (NewPostProcessorHeader DefaultIDHeader))).
  rewrite ServeHTTP_bound. cbv zeta.
  rewrite GetID_NewSourceHeader. cbn [fst snd]. fold (GetRequestID (w_r w)).
  rewrite Hget. change (String.eqb "" "") with true. cbv iota.
  exists (timestampIDGenerator.Generate timestampIDGenerator.mk w).1.
  eexists. split; [reflexivity|].
  split; [apply timestampIDGenerator_Generate_nonempty|].
  split; [apply lookup_insert_eq|]. split; [apply lookup_insert_eq|].
  split; [reflexivity | exact Hget].
Qed.

Lemma context_pipeline_leaves_request_witness :
  let w := mkWorld (mkResponseWriter ∅) (mkRequest ∅) ∅ 1446336000123456789 [x1f; xc4] in
  ∃ id w',
    ServeHTTP (NewRequestIDInjector (context_options "request-id")) (fun w => w) w =
      Some (tt, w',
            [CallGetID ""; CallGenerate id; CallSaveID id; CallProcess id; CallNext]) ∧
    id ≠ "" ∧
    w_context w' !! "request-id" = Some id ∧
    rw_Header (w_rw w') !! "X-Command-ID" = Some [id] ∧
    w_r w' = w_r w ∧
    GetRequestID (w_r w') = "".
Proof.
  intros w.
  exact (context_pipeline_leaves_request "request-id" (fun w => w) w eq_refl).
Defined.

(** X15: with a custom source that reads the request and returns a
    non-empty identifier, that identifier is resolved whatever the request
    carries under the default header, the generator is not called, and the
    header save handler replaces the header of the request by it: the next
    handler reads the custom identifier through [GetRequestID]. *)
Theorem custom_source_pipeline_overrides_header
    (f : Request -> string) (next : World -> World) (w : World) :
  f (w_r w) ≠ "" →
  ∃ w',
    ServeHTTP (NewRequestIDInjector (custom_source_options f)) next w =
      Some (tt, next w',
            [CallGetID (f (w_r w)); CallSaveID (f (w_r w)); CallProcess (f (w_r w)); CallNext]) ∧
    GetRequestID (w_r w') = f (w_r w) ∧
    req_Header (w_r w') !! "X-Command-Id" = Some [f (w_r w)] ∧
    w_entropy w' = w_entropy w.
Proof.
  intros Hf.
  change (NewRequestIDInjector (custom_source_options f))
    with (mkInjector (Some NewTimestampIDGenerator)
            (Some (NewSourceCustom (fun w => (f (w_r w), w))))
            (Some (NewSaveHandlerHeader DefaultIDHeader))
            (Some (NewPostProcessorHeader DefaultIDHeader))).
  rewrite ServeHTTP_bound. cbv zeta.
  cbn [GetID NewSourceCustom sourceCustom.GetID sourceCustom.fn fst snd].
  apply String.eqb_neq in Hf. rewrite Hf.
  eexists. split; [reflexivity|].
  destruct (default_recorded (f (w_r w)) w) as (Hg & Hr & _ & _ & _ & He & _).
  cbv zeta in Hg, Hr, He. rewrite Hr.
  split; [exact Hg|]. split; [apply lookup_insert_eq | exact He].
Qed.

Lemma custom_source_pipeline_overrides_header_witness :
  let f := fun r : Request => Header_Get (req_Header r) "X-Trace" in
  let w := mkWorld (mkResponseWriter ∅)
                   (mkRequest {[ "X-Command-Id" := ["old"]; "X-Trace" := ["new"] ]}) ∅ 0 [] in
  ∃ w',
    ServeHTTP (NewRequestIDInjector (custom_source_options f)) (fun w => w) w =
      Some (tt, w', [CallGetID "new"; CallSaveID "new"; CallProcess "new"; CallNext]) ∧
    GetRequestID (w_r w') = "new" ∧
    req_Header (w_r w') !! "X-Command-Id" = Some ["new"] ∧
    w_entropy w' = w_entropy w.
Proof.
  intros f w.
  exact (custom_source_pipeline_overrides_header f (fun w => w) w ltac:(discriminate)).
Defined.

(** X16: the default source looks under the canonical key only.  A
    request that holds its identifier under the key ["X-Command-ID"] itself
    (put there by a map assignment, as the header post-processor does on a
    response) and nothing under ["X-Command-Id"] counts as having none: the
    default injector generates an identifier, and the entry under
    ["X-Command-ID"] stays in the request beside the new one. *)
Theorem default_pipeline_ignores_raw_key (next : World -> World) (w : World) :
  req_Header (w_r w) !! "X-Command-Id" = None →
  ∃ id w',
    ServeHTTP (NewRequestIDInjector empty_options) next w =
      Some (tt, next w',
            [CallGetID ""; CallGenerate id; CallSaveID id; CallProcess id; CallNext]) ∧
    id = (timestampIDGenerator.Generate timestampIDGenerator.mk w).1 ∧
    req_Header (w_r w') !! "X-Command-Id" = Some [id] ∧
    req_Header (w_r w') !! "X-Command-ID" = req_Header (w_r w) !! "X-Command-ID".
Proof.
  intros Hh.
  assert (Hget : GetRequestID (w_r w) = "").
  { unfold GetRequestID, Header_Get. rewrite CanonicalMIMEHeaderKey_default, Hh. reflexivity. }
  rewrite default_pipeline_result, Hget. change (String.eqb "" "") with true. cbv zeta iota.
  do 2 eexists. split; [reflexivity|]. split; [reflexivity|].
  match goal with
  | |- context [default_process ?id (default_save ?id ?w0)] =>
      destruct (default_recorded id w0) as (_ & Hr & _)
  end. cbv zeta in Hr. rewrite Hr.
  split; [apply lookup_insert_eq | now apply lookup_insert_ne].
Qed.

Lemma default_pipeline_ignores_raw_key_witness :
  let w := mkWorld (mkResponseWriter ∅)
                   (mkRequest {[ "X-Command-ID" := ["abc123"] ]}) ∅
                   1446336000123456789 [x1f; xc4] in
  ∃ id w',
    ServeHTTP (NewRequestIDInjector empty_options) (fun w => w) w =
      Some (tt, w',
            [CallGetID ""; CallGenerate id; CallSaveID id; CallProcess id; CallNext]) ∧
    id = "1446336000.123457.1fc4" ∧
    req_Header (w_r w') !! "X-Command-Id" = Some [id] ∧
    req_Header (w_r w') !! "X-Command-ID" = Some ["abc123"].
Proof.
  intros w. exact (default_pipeline_ignores_raw_key (fun w => w) w eq_refl).
Defined.
